(** * firebase_functions: params and the manifest serializer

    A shallow embedding of [firebase_functions/params.py] (the expression
    algebra, the typed params and the process-wide registry) and of
    [firebase_functions/private/manifest.py] (the conversion of a manifest
    tree into plain nested mappings), followed by the properties that the
    design document states about them.

    Conventions.
    - A Python [str] is a [string]; its characters are bytes, so that a
      non-ASCII text is its UTF-8 encoding (byte order and code point order
      agree on it).
    - [os.environ] is a finite map from names to strings; the registry
      [_params] is a finite map from names to param objects.
    - A call that may raise returns a [result]; a call that also writes the
      registry returns the [result] together with the registry it leaves
      behind, because a raised exception does not undo earlier writes.
    - The generic parameter [_T] ranges over the five types the source
      constrains it to; [denote] gives the Rocq type of each. *)

From Stdlib Require Import ZArith String Ascii List DecimalString.
From Stdlib Require Import PrimFloat SpecFloat FloatOps Uint63.
From stdpp Require Import base option gmap strings list.

Open Scope string_scope.
Set Warnings "-register-all".

(** ** The Python runtime *)

Module Py.

(** The two exception classes the sources raise. *)
Inductive exn : Type :=
| ValueError (msg : string)
| NotImplementedError (msg : string).

Inductive result (A : Type) : Type :=
| Ok (a : A)
| Raise (e : exn).
Arguments Ok {A} a.
Arguments Raise {A} e.

Definition bind {A B} (m : result A) (k : A -> result B) : result B :=
  match m with
  | Ok a => k a
  | Raise e => Raise e
  end.

(** The type variable [_T = TypeVar("_T", str, int, float, bool, list)]. *)
Inductive ty : Type := TStr | TInt | TFloat | TBool | TList.

Definition denote (t : ty) : Type :=
  match t with
  | TStr => string
  | TInt => Z
  | TFloat => float
  | TBool => bool
  | TList => list string
  end.

(** The builtins whose behaviour belongs to the interpreter and not to
    this code base: [int(s)], [float(s)], [str(f)] of a float and
    [str(l)] of a list.  Everything proved below holds for each of
    their implementations. *)
Class Runtime : Type := {
  py_int : string -> result Z;
  py_float : string -> result float;
  py_str_float : float -> string;
  py_str_list : list string -> string
}.

Definition dquote : string := String "034"%char EmptyString.

(** [str(n)] of an int. *)
Definition str_int (n : Z) : string := NilZero.string_of_int (Z.to_int n).

(** [str(b)] of a bool. *)
Definition str_bool (b : bool) : string := if b then "True" else "False".

(** [format(x, "")] as an f-string field applies it to a value of one of
    the five types. *)
Definition py_str `{Runtime} {t : ty} : denote t -> string :=
  match t with
  | TStr => fun s => s
  | TInt => str_int
  | TFloat => py_str_float
  | TBool => str_bool
  | TList => py_str_list
  end.

(** [c.lower()] on one character.  Outside ASCII [str.lower] never
    produces one of the letters of the boolean tokens, so leaving the
    other bytes alone does not change any membership test below. *)
Definition lower_ascii (c : ascii) : ascii :=
  let n := nat_of_ascii c in
  if (65 <=? n)%nat && (n <=? 90)%nat then ascii_of_nat (n + 32) else c.

Fixpoint lower (s : string) : string :=
  match s with
  | EmptyString => EmptyString
  | String c rest => String (lower_ascii c) (lower rest)
  end.

(** [s.split(sep)] for a one-character separator: never the empty
    list, [n] separators give [n + 1] pieces. *)
Fixpoint split (sep : ascii) (s : string) : list string :=
  match s with
  | EmptyString => [EmptyString]
  | String c rest =>
      if Ascii.eqb c sep then EmptyString :: split sep rest
      else match split sep rest with
           | [] => [String c EmptyString]
           | piece :: pieces => String c piece :: pieces
           end
  end.

(** [len(s)] used as a truth value by [filter(len, ...)]. *)
Definition nonempty (s : string) : bool :=
  match s with
  | EmptyString => false
  | String _ _ => true
  end.

(** [sep.join(l)]. *)
Definition join (sep : string) (l : list string) : string := String.concat sep l.

(** [x in l] for a list of strings. *)
Definition str_in (x : string) (l : list string) : bool :=
  existsb (String.eqb x) l.

(** Comparison of two values of the same type.  Strings and lists are
    ordered lexicographically, [False < True], floats follow IEEE 754. *)
Fixpoint list_compare (a b : list string) : comparison :=
  match a, b with
  | [], [] => Eq
  | [], _ :: _ => Lt
  | _ :: _, [] => Gt
  | x :: a', y :: b' =>
      match String.compare x y with
      | Eq => list_compare a' b'
      | c => c
      end
  end.

Definition is_Eq (c : comparison) : bool := match c with Eq => true | _ => false end.
Definition is_Lt (c : comparison) : bool := match c with Lt => true | _ => false end.
Definition is_Le (c : comparison) : bool := match c with Gt => false | _ => true end.

Definition py_eq {t : ty} : denote t -> denote t -> bool :=
  match t with
  | TStr => String.eqb
  | TInt => Z.eqb
  | TFloat => PrimFloat.eqb
  | TBool => Bool.eqb
  | TList => fun a b => is_Eq (list_compare a b)
  end.

Definition py_lt {t : ty} : denote t -> denote t -> bool :=
  match t with
  | TStr => fun a b => is_Lt (String.compare a b)
  | TInt => Z.ltb
  | TFloat => PrimFloat.ltb
  | TBool => fun a b => negb a && b
  | TList => fun a b => is_Lt (list_compare a b)
  end.

Definition py_le {t : ty} : denote t -> denote t -> bool :=
  match t with
  | TStr => fun a b => is_Le (String.compare a b)
  | TInt => Z.leb
  | TFloat => PrimFloat.leb
  | TBool => fun a b => negb a || b
  | TList => fun a b => is_Le (list_compare a b)
  end.

Definition py_gt {t : ty} (a b : denote t) : bool := py_lt b a.
Definition py_ge {t : ty} (a b : denote t) : bool := py_le b a.

End Py.

Import Py.

(** ** params.py *)

Module Params.

(** [SelectOptions], [SelectInput], [TextInput], [ResourceInput]: the
    ways a param's value may be asked for at deploy time. *)
Record SelectOptions (t : ty) : Type := {
  option_value : denote t;
  option_label : option string
}.

Record SelectInput (t : ty) : Type := {
  options : list (SelectOptions t)
}.

Record TextInput : Type := {
  example : option string;
  validation_regex : option string;
  validation_error_message : option string
}.

Record ResourceInput : Type := {
  resource_type : string
}.

Inductive ParamInput (t : ty) : Type :=
| InputText (i : TextInput)
| InputResource (i : ResourceInput)
| InputSelect (i : SelectInput t).
Arguments InputText {t} i.
Arguments InputResource {t} i.
Arguments InputSelect {t} i.

(** [TextInput()], the default of [Param.input]. *)
Definition TextInput_default : TextInput :=
  {| example := None; validation_regex := None; validation_error_message := None |}.

(** The class of a [Param] object: [Param] itself or one of its
    subclasses.  The class fixes the type argument, except for the
    base class. *)
Inductive ParamClass : ty -> Type :=
| BaseParam (t : ty) : ParamClass t
| StringParam : ParamClass TStr
| IntParam : ParamClass TInt
| FloatParam : ParamClass TFloat
| BoolParam : ParamClass TBool
| ListParam : ParamClass TList
| _DefaultStringParam : ParamClass TStr.

(** The fields of the dataclass [Param], with the class of the object. *)
Record Param (t : ty) : Type := mkParam {
  cls : ParamClass t;
  name : string;
  default : option (denote t);
  label : option string;
  description : option string;
  immutable : option bool;
  input : ParamInput t
}.
Arguments mkParam {t}.
Arguments cls {t}.
Arguments name {t}.
Arguments default {t}.
Arguments label {t}.
Arguments description {t}.
Arguments immutable {t}.
Arguments input {t}.

(** [C(name)] and [C(name, default=d)] with every other field at its
    declared default, before [__post_init__] runs. *)
Definition param {t} (c : ParamClass t) (n : string) (d : option (denote t)) : Param t :=
  mkParam c n d None None None (InputText TextInput_default).

Record SecretParam : Type := mkSecretParam {
  secret_name : string;
  secret_label : option string;
  secret_description : option string;
  secret_immutable : option bool
}.

Definition secret (n : string) : SecretParam := mkSecretParam n None None None.

(** The instances of [Expression[_T]].  [BareExpression] is the base
    class instantiated directly, which [abc] permits since the class
    declares no abstract method. *)
Inductive Expression : ty -> Type :=
| BareExpression (t : ty) : Expression t
| TernaryExpression {t : ty} (test : Expression TBool) (if_true if_false : denote t) : Expression t
| CompareExpression {t : ty} (comparator : string) (left : Expression t) (right : denote t) : Expression TBool
| OfParam {t : ty} (p : Param t) : Expression t
| OfSecretParam (s : SecretParam) : Expression TStr.

(** [isinstance(self, _DefaultStringParam)]. *)
Definition is_DefaultStringParam {t} (c : ParamClass t) : bool :=
  match c with
  | _DefaultStringParam => true
  | _ => false
  end.

(** The exceptions, under the names the design document gives them.
    The code raises [ValueError] with these messages, and
    [NotImplementedError()] from the [value] of the two base classes. *)
Definition InvalidBooleanError (n env_value : string) : exn :=
  ValueError ("Invalid value for " +:+ n +:+ ": " +:+ env_value).

Definition InvalidComparatorError (comparator : string) : exn :=
  ValueError ("Unknown comparator " +:+ comparator).

Definition InvalidNameError : exn :=
  ValueError ("Parameter names must only use uppercase letters, numbers and "
              +:+ "underscores, e.g. 'UPPER_SNAKE_CASE'.").

Definition DuplicateParamError (n : string) : exn :=
  ValueError ("Duplicate Parameter Error: The parameter '" +:+ n
              +:+ "' has already been declared.").

Definition NotImplemented : exn := NotImplementedError EmptyString.

(** *** Rendering *)

(** [_quote_if_string]: a string literal gets double quotes, any other
    literal is returned as it is. *)
Definition _quote_if_string {t : ty} : denote t -> denote t :=
  match t with
  | TStr => fun literal => dquote +:+ literal +:+ dquote
  | _ => fun literal => literal
  end.

Section Rendering.
Context `{Runtime}.

(** [__str__]. *)
Fixpoint str {t} (e : Expression t) : string :=
  match e with
  | BareExpression _ => "Expression()"
  | TernaryExpression test if_true if_false =>
      str test +:+ " ? " +:+ py_str (_quote_if_string if_true)
        +:+ " : " +:+ py_str (_quote_if_string if_false)
  | CompareExpression comparator lhs rhs =>
      str lhs +:+ " " +:+ comparator +:+ " " +:+ py_str (_quote_if_string rhs)
  | OfParam p => "params." +:+ name p
  | OfSecretParam s => "params." +:+ secret_name s
  end.

(** [to_cel]: the braced form. *)
Definition to_cel {t} (e : Expression t) : string :=
  "{{ " +:+ str e +:+ " }}".
End Rendering.

(** *** Evaluation *)

Abbreviation environ := (gmap string string).

Definition TRUE_TOKENS : list string := ["true"; "t"; "1"; "y"; "yes"].
Definition FALSE_TOKENS : list string := ["false"; "f"; "0"; "n"; "no"].

Section Evaluation.
Context `{Runtime}.

(** [value] of a param, dispatched on its class. *)
Definition Param_value {t} (self : Param t) (env : environ) : result (denote t) :=
  match cls self in ParamClass t0 return option (denote t0) -> result (denote t0) with
  | BaseParam _ => fun _ => Raise NotImplemented
  | StringParam | _DefaultStringParam => fun default =>
      match (env !! name self : option string) with
      | Some s => Ok s
      | None =>
          match default with
          | Some d => Ok d
          | None => Ok EmptyString
          end
      end
  | IntParam => fun default =>
      match (env !! name self : option string) with
      | Some s => py_int s
      | None =>
          match default with
          | Some d => Ok d
          | None => Ok 0%Z
          end
      end
  | FloatParam => fun default =>
      match (env !! name self : option string) with
      | Some s => py_float s
      | None =>
          match default with
          | Some d => Ok d
          | None => Ok 0%float
          end
      end
  | BoolParam => fun default =>
      match (env !! name self : option string) with
      | Some env_value =>
          if str_in (lower env_value) TRUE_TOKENS then Ok true
          else if str_in (lower env_value) FALSE_TOKENS then Ok false
          else Raise (InvalidBooleanError (name self) env_value)
      | None =>
          match default with
          | Some d => Ok d
          | None => Ok false
          end
      end
  | ListParam => fun default =>
      match (env !! name self : option string) with
      | Some s => Ok (List.filter nonempty (split ","%char s))
      | None =>
          match default with
          | Some d => Ok d
          | None => Ok []
          end
      end
  end (default self).

(** [SecretParam.value]: [os.environ.get(self.name, "")]. *)
Definition SecretParam_value (self : SecretParam) (env : environ) : result string :=
  match env !! secret_name self with
  | Some s => Ok s
  | None => Ok EmptyString
  end.

(** [value]. *)
Fixpoint value {t} (e : Expression t) (env : environ) : result (denote t) :=
  match e with
  | BareExpression _ => Raise NotImplemented
  | TernaryExpression test if_true if_false =>
      bind (value test env) (fun b => Ok (if b then if_true else if_false))
  | CompareExpression comparator lhs rhs =>
      bind (value lhs env) (fun l =>
        if String.eqb comparator "==" then Ok (py_eq l rhs)
        else if String.eqb comparator ">" then Ok (py_gt l rhs)
        else if String.eqb comparator ">=" then Ok (py_ge l rhs)
        else if String.eqb comparator "<" then Ok (py_lt l rhs)
        else if String.eqb comparator "<=" then Ok (py_le l rhs)
        else Raise (InvalidComparatorError comparator))
  | OfParam p => Param_value p env
  | OfSecretParam s => SecretParam_value s env
  end.
End Evaluation.

(** *** The registry *)

(** What [_params] holds: the [Param] and [SecretParam] objects that
    registered themselves. *)
Inductive AnyParam : Type :=
| AParam {t : ty} (p : Param t)
| ASecret (s : SecretParam).

Definition param_name (p : AnyParam) : string :=
  match p with
  | AParam q => name q
  | ASecret s => secret_name s
  end.

Definition is_default (p : AnyParam) : bool :=
  match p with
  | AParam q => is_DefaultStringParam (cls q)
  | ASecret _ => false
  end.

Abbreviation registry := (gmap string AnyParam).

(** [re.match(r"^[A-Z0-9_]+$", name)]: one or more characters of the
    class, up to the end of the name or to a newline that ends it (which
    is where [$] matches when [re.MULTILINE] is off). *)
Definition name_char (c : ascii) : bool :=
  let n := nat_of_ascii c in
  ((65 <=? n)%nat && (n <=? 90)%nat) || ((48 <=? n)%nat && (n <=? 57)%nat) || (n =? 95)%nat.

Fixpoint name_tail (s : string) : bool :=
  match s with
  | EmptyString => true
  | String c rest =>
      if name_char c then name_tail rest
      else Ascii.eqb c "010"%char && String.eqb rest EmptyString
  end.

Definition name_matches (s : string) : bool :=
  match s with
  | EmptyString => false
  | String c rest => name_char c && name_tail rest
  end.

(** [Param.__post_init__], run by the constructor of [Param] and of each
    of its subclasses. *)
Definition Param_post_init {t} (self : Param t) (_params : registry) : result unit * registry :=
  if is_DefaultStringParam (cls self) then (Ok tt, _params)
  else if negb (name_matches (name self)) then (Raise InvalidNameError, _params)
  else match _params !! name self with
       | Some _ => (Raise (DuplicateParamError (name self)), _params)
       | None => (Ok tt, <[name self := AParam self]> _params)
       end.

(** [SecretParam.__post_init__]. *)
Definition SecretParam_post_init (self : SecretParam) (_params : registry) : result unit * registry :=
  if negb (name_matches (secret_name self)) then (Raise InvalidNameError, _params)
  else match _params !! secret_name self with
       | Some _ => (Raise (DuplicateParamError (secret_name self)), _params)
       | None => (Ok tt, <[secret_name self := ASecret self]> _params)
       end.

(** Constructing a param object: the dataclass [__init__] stores the
    fields and then calls [__post_init__]. *)
Definition construct (p : AnyParam) (_params : registry) : result unit * registry :=
  match p with
  | AParam q => Param_post_init q _params
  | ASecret s => SecretParam_post_init s _params
  end.

(** A run of a program: the param objects it constructs, in order,
    with what each constructor returned.  A constructor that raises
    leaves the registry as it found it and the run goes on (the caller
    may catch the exception). *)
Fixpoint construct_all (ps : list AnyParam) (_params : registry)
    : list (result unit) * registry :=
  match ps with
  | [] => ([], _params)
  | p :: rest =>
      let (r, reg) := construct p _params in
      let (rs, reg') := construct_all rest reg in
      (r :: rs, reg')
  end.

Definition run (ps : list AnyParam) (_params : registry) : registry :=
  snd (construct_all ps _params).

(** The registries a process can be in. *)
Inductive reachable : registry -> Prop :=
| reachable_start : reachable ∅
| reachable_construct (p : AnyParam) (reg : registry) :
    reachable reg -> reachable (snd (construct p reg)).

(** The params the module declares when it is imported. *)
Definition PROJECT_ID : Param TStr :=
  mkParam _DefaultStringParam "GCLOUD_PROJECT" None None
    (Some "The active Firebase project") None (InputText TextInput_default).

Definition STORAGE_BUCKET : Param TStr :=
  mkParam _DefaultStringParam "STORAGE_BUCKET" None None
    (Some "The default Cloud Storage for Firebase bucket") None (InputText TextInput_default).

Definition DATABASE_URL : Param TStr :=
  mkParam _DefaultStringParam "DATABASE_URL" None None
    (Some "The Firebase project's default Realtime Database instance URL") None
    (InputText TextInput_default).

Definition DATABASE_INSTANCE : Param TStr :=
  mkParam _DefaultStringParam "DATABASE_INSTANCE" None None
    (Some "The Firebase project's default Realtime Database instance name") None
    (InputText TextInput_default).

Definition EXTENSION_ID : Param TStr :=
  mkParam _DefaultStringParam "EXT_INSTANCE_ID" (Some EmptyString)
    (Some "Extension instance ID")
    (Some ("When a function is running as part of an extension, "
           +:+ "this is the unique identifier for the installed extension "
           +:+ "instance")) None (InputText TextInput_default).

Definition module_params : list AnyParam :=
  [AParam PROJECT_ID; AParam STORAGE_BUCKET; AParam DATABASE_URL;
   AParam DATABASE_INSTANCE; AParam EXTENSION_ID].

(** The registry once [params.py] has been imported. *)
Definition module_init : registry := run module_params ∅.

(** [CompareExpression.then], [Param.compare] and [Param.equals],
    [SecretParam.compare] and [SecretParam.equals]. *)
Definition then_ {t} (self : Expression TBool) (if_true if_false : denote t) : Expression t :=
  TernaryExpression self if_true if_false.

Definition compare {t} (self : Param t) (op : string) (right : denote t) : Expression TBool :=
  CompareExpression op (OfParam self) right.

Definition equals {t} (self : Param t) (right : denote t) : Expression TBool :=
  compare self "==" right.

Definition secret_compare (self : SecretParam) (op : string) (right : string) : Expression TBool :=
  CompareExpression op (OfSecretParam self) right.

Definition secret_equals (self : SecretParam) (right : string) : Expression TBool :=
  secret_compare self "==" right.

End Params.

Import Params.

(** ** private/manifest.py *)

Module Manifest.

(** Modelled from the spec: the class [Sentinel] of
    [firebase_functions.private.util], whose source is not part of this
    development.  The design document calls it "a singleton marker type
    distinct from field absent": a class of its own with one instance,
    which is no enum member, expression, dataclass instance, list or
    dict. *)
Inductive Sentinel : Type := the_sentinel.

(** The objects a manifest tree is made of and the objects the
    conversion returns, as [_object_to_spec] tells them apart: enum
    members, expressions, dataclass instances (their fields in
    declaration order), lists, dicts (their items in insertion order) and
    everything else, which is [None], a scalar or the marker. *)
Inductive data : Type :=
| PyNone
| PyBool (b : bool)
| PyInt (n : Z)
| PyFloat (f : float)
| PyStr (s : string)
| PyEnum (value : data)
| PyExpression {t : ty} (e : Expression t)
| PyDataclass (fields : list (string * data))
| PyList (l : list data)
| PyDict (items : list (string * data))
| PySentinel (marker : Sentinel).

(** The marker as a field value. *)
Definition SENTINEL : data := PySentinel the_sentinel.

Abbreviation dict := (list (string * data)).

(** [value is not None]. *)
Definition is_not_None (d : data) : bool :=
  match d with
  | PyNone => false
  | _ => true
  end.

(** [out[key] = value] on a dict: the value of an existing key is
    replaced where it stands, a new key goes to the end. *)
Fixpoint dict_set (key : string) (value : data) (out : dict) : dict :=
  match out with
  | [] => [(key, value)]
  | (k, v) :: rest =>
      if String.eqb k key then (k, value) :: rest
      else (k, v) :: dict_set key value rest
  end.

(** [out.get(key)]: nothing when the key is not in the dict. *)
Fixpoint dict_get (key : string) (out : dict) : option data :=
  match out with
  | [] => None
  | (k, v) :: rest => if String.eqb k key then Some v else dict_get key rest
  end.

(** [list(out.keys())]. *)
Definition keys (out : dict) : list string := map fst out.

(** A value of one of the five param types as an object. *)
Definition to_data {t : ty} : denote t -> data :=
  match t with
  | TStr => PyStr
  | TInt => PyInt
  | TFloat => PyFloat
  | TBool => PyBool
  | TList => fun l => PyList (map PyStr l)
  end.

(** An [Optional] attribute as an object. *)
Definition optional {A} (f : A -> data) (o : option A) : data :=
  match o with
  | Some a => f a
  | None => PyNone
  end.

(** A param object in the tree: an [Expression] instance. *)
Definition param_obj (p : AnyParam) : data :=
  match p with
  | AParam q => PyExpression (OfParam q)
  | ASecret s => PyExpression (OfSecretParam s)
  end.

(** The dataclass [ManifestEndpoint].  Python does not enforce the
    declared unions, so each attribute is an object. *)
Record ManifestEndpoint : Type := {
  entryPoint : data;
  region : data;
  platform : data;
  availableMemoryMb : data;
  maxInstances : data;
  minInstances : data;
  concurrency : data;
  serviceAccountEmail : data;
  timeoutSeconds : data;
  cpu : data;
  vpc : data;
  labels : data;
  ingressSettings : data;
  secretEnvironmentVariables : data;
  httpsTrigger : data;
  callableTrigger : data;
  eventTrigger : data;
  scheduleTrigger : data;
  blockingTrigger : data
}.

(** [ManifestEndpoint()]: every attribute at its declared default. *)
Definition ManifestEndpoint_default : ManifestEndpoint := {|
  entryPoint := PyNone;
  region := PyList [];
  platform := PyStr "gcfv2";
  availableMemoryMb := PyNone;
  maxInstances := PyNone;
  minInstances := PyNone;
  concurrency := PyNone;
  serviceAccountEmail := PyNone;
  timeoutSeconds := PyNone;
  cpu := PyNone;
  vpc := PyNone;
  labels := PyNone;
  ingressSettings := PyNone;
  secretEnvironmentVariables := PyList [];
  httpsTrigger := PyNone;
  callableTrigger := PyNone;
  eventTrigger := PyNone;
  scheduleTrigger := PyNone;
  blockingTrigger := PyNone
|}.

(** [(f.name, getattr(e, f.name))] for [f] in [dataclasses.fields(e)]. *)
Definition ManifestEndpoint_fields (e : ManifestEndpoint) : dict :=
  [ ("entryPoint", entryPoint e);
    ("region", region e);
    ("platform", platform e);
    ("availableMemoryMb", availableMemoryMb e);
    ("maxInstances", maxInstances e);
    ("minInstances", minInstances e);
    ("concurrency", concurrency e);
    ("serviceAccountEmail", serviceAccountEmail e);
    ("timeoutSeconds", timeoutSeconds e);
    ("cpu", cpu e);
    ("vpc", vpc e);
    ("labels", labels e);
    ("ingressSettings", ingressSettings e);
    ("secretEnvironmentVariables", secretEnvironmentVariables e);
    ("httpsTrigger", httpsTrigger e);
    ("callableTrigger", callableTrigger e);
    ("eventTrigger", eventTrigger e);
    ("scheduleTrigger", scheduleTrigger e);
    ("blockingTrigger", blockingTrigger e) ].

Definition endpoint_obj (e : ManifestEndpoint) : data :=
  PyDataclass (ManifestEndpoint_fields e).

(** The typed dicts [EventTrigger], [VpcSettings] and
    [ManifestRequiredApi]: a key that is [NotRequired] and was not given
    is not in the dict. *)
Record EventTrigger : Type := {
  eventFilters : option dict;
  eventFilterPathPatterns : option dict;
  channel : option string;
  eventType : string;
  retry : data
}.

Definition not_required (key : string) (o : option data) : dict :=
  match o with
  | Some v => [(key, v)]
  | None => []
  end.

Definition EventTrigger_obj (tr : EventTrigger) : data :=
  PyDict (not_required "eventFilters" (PyDict <$> eventFilters tr)
          ++ not_required "eventFilterPathPatterns" (PyDict <$> eventFilterPathPatterns tr)
          ++ not_required "channel" (PyStr <$> channel tr)
          ++ [("eventType", PyStr (eventType tr)); ("retry", retry tr)]).

Record VpcSettings : Type := {
  connector : string;
  egressSettings : option data
}.

Definition VpcSettings_obj (v : VpcSettings) : data :=
  PyDict (("connector", PyStr (connector v)) :: not_required "egressSettings" (egressSettings v)).

Record ManifestRequiredApi : Type := {
  api : string;
  reason : string
}.

Definition ManifestRequiredApi_obj (a : ManifestRequiredApi) : data :=
  PyDict [("api", PyStr (api a)); ("reason", PyStr (reason a))].

(** The dataclass [ManifestStack]. *)
Record ManifestStack : Type := {
  endpoints : list (string * ManifestEndpoint);
  specVersion : string;
  params : option (list AnyParam);
  requiredAPIs : list ManifestRequiredApi
}.

(** [ManifestStack(endpoints)]. *)
Definition ManifestStack_default (eps : list (string * ManifestEndpoint)) : ManifestStack := {|
  endpoints := eps;
  specVersion := "v1alpha1";
  params := Some [];
  requiredAPIs := []
|}.

Definition ManifestStack_fields (m : ManifestStack) : dict :=
  [ ("endpoints", PyDict (map (fun ne => (fst ne, endpoint_obj (snd ne))) (endpoints m)));
    ("specVersion", PyStr (specVersion m));
    ("params", optional (fun ps => PyList (map param_obj ps)) (params m));
    ("requiredAPIs", PyList (map ManifestRequiredApi_obj (requiredAPIs m))) ].

(** What [_param_to_spec] raises for a param of no known class. *)
Definition UnsupportedParamTypeError : exn :=
  NotImplementedError "Unsupported param type.".

Definition stack_obj (m : ManifestStack) : data :=
  PyDataclass (ManifestStack_fields m).

(** [list(map(f, l))] for an [f] that may raise: the first exception
    ends the traversal. *)
Fixpoint map_result {A B} (f : A -> result B) (l : list A) : result (list B) :=
  match l with
  | [] => Ok []
  | a :: rest =>
      bind (f a) (fun b => bind (map_result f rest) (fun bs => Ok (b :: bs)))
  end.

Section Serializer.
Context `{Runtime}.

(** [_object_to_spec], with the loops of [_dataclass_to_spec] and of
    [_dict_factory] it calls on the fields of a dataclass instance and
    on the items of a dict. *)
Fixpoint _object_to_spec (d : data) : data :=
  let fix dataclass_loop (fields : dict) (out : dict) : dict :=
    match fields with
    | [] => out
    | (field_name, attr) :: rest =>
        let value := _object_to_spec attr in
        dataclass_loop rest
          (if is_not_None value then dict_set field_name value out else out)
    end in
  let fix factory_loop (items : dict) (out : dict) : dict :=
    match items with
    | [] => out
    | (key, value) :: rest =>
        factory_loop rest
          (if is_not_None value then dict_set key (_object_to_spec value) out else out)
    end in
  match d with
  | PyEnum value => value
  | PyExpression e => PyStr (to_cel e)
  | PyDataclass fields => PyDict (dataclass_loop fields [])
  | PyList l => PyList (map _object_to_spec l)
  | PyDict items => PyDict (factory_loop items [])
  | _ => d
  end.

(** The loop of [_dict_factory], from a given [out]. *)
Fixpoint _dict_factory_loop (items : dict) (out : dict) : dict :=
  match items with
  | [] => out
  | (key, value) :: rest =>
      _dict_factory_loop rest
        (if is_not_None value then dict_set key (_object_to_spec value) out else out)
  end.

(** [_dict_factory]. *)
Definition _dict_factory (items : dict) : dict := _dict_factory_loop items [].

(** The loop of [_dataclass_to_spec], from a given [out]. *)
Fixpoint _dataclass_to_spec_loop (fields : dict) (out : dict) : dict :=
  match fields with
  | [] => out
  | (field_name, attr) :: rest =>
      let value := _object_to_spec attr in
      _dataclass_to_spec_loop rest
        (if is_not_None value then dict_set field_name value out else out)
  end.

(** [_dataclass_to_spec], on the fields of the instance. *)
Definition _dataclass_to_spec (fields : dict) : dict := _dataclass_to_spec_loop fields [].

(** [_dict_to_spec]. *)
Definition _dict_to_spec (items : dict) : dict := _dict_factory items.

(** Both loops at once: [f] says what an item contributes, [None] when
    the item is skipped. *)
Fixpoint fill (f : data -> option data) (items : dict) (out : dict) : dict :=
  match items with
  | [] => out
  | (key, value) :: rest =>
      fill f rest (match f value with
                   | Some w => dict_set key w out
                   | None => out
                   end)
  end.

Definition factory_item (value : data) : option data :=
  if is_not_None value then Some (_object_to_spec value) else None.

Definition dataclass_item (attr : data) : option data :=
  let value := _object_to_spec attr in
  if is_not_None value then Some value else None.

(** [_param_to_spec]. *)
Definition _param_to_spec (param : AnyParam) : result dict :=
  match param with
  | AParam p =>
      let spec_dict : dict :=
        [ ("name", PyStr (name p));
          ("label", optional PyStr (label p));
          ("description", optional PyStr (description p));
          ("immutable", optional PyBool (immutable p)) ] in
      let spec_dict := dict_set "default" (optional to_data (default p)) spec_dict in
      match cls p in ParamClass t0 return option (denote t0) -> result dict with
      | BoolParam => fun _ =>
          Ok (_dict_to_spec (dict_set "type" (PyStr "boolean") spec_dict))
      | IntParam => fun _ =>
          Ok (_dict_to_spec (dict_set "type" (PyStr "int") spec_dict))
      | FloatParam => fun _ =>
          Ok (_dict_to_spec (dict_set "type" (PyStr "float") spec_dict))
      | ListParam => fun default =>
          let spec_dict := dict_set "type" (PyStr "list") spec_dict in
          let spec_dict :=
            match default with
            | Some l => dict_set "default" (PyStr (join "," l)) spec_dict
            | None => spec_dict
            end in
          Ok (_dict_to_spec spec_dict)
      | StringParam | _DefaultStringParam => fun _ =>
          Ok (_dict_to_spec (dict_set "type" (PyStr "string") spec_dict))
      | BaseParam _ => fun _ =>
          Raise UnsupportedParamTypeError
      end (default p)
  | ASecret s =>
      let spec_dict : dict :=
        [ ("name", PyStr (secret_name s));
          ("label", optional PyStr (secret_label s));
          ("description", optional PyStr (secret_description s));
          ("immutable", optional PyBool (secret_immutable s)) ] in
      Ok (_dict_to_spec (dict_set "type" (PyStr "secret") spec_dict))
  end.

(** [manifest_to_spec_dict]. *)
Definition manifest_to_spec_dict (manifest : ManifestStack) : result dict :=
  let out := _dataclass_to_spec (ManifestStack_fields manifest) in
  match params manifest with
  | Some ps =>
      bind (map_result _param_to_spec ps) (fun specs =>
        Ok (dict_set "params" (PyList (map PyDict specs)) out))
  | None => Ok out
  end.

End Serializer.

End Manifest.

Import Manifest.

(** ** A runtime to run the model on concrete inputs

    No general statement below depends on it.  It is a part of the
    interpreter's behaviour, enough for the closed examples, and raises
    or prints otherwise than CPython outside that part:
    - [int_literal] reads an optional sign and decimal digits only, no
      surrounding white space and no underscores between digits;
    - [float_literal] reads an optional sign and [i] or [i.f] only, no
      exponent, no [inf] or [nan], no white space, with at most 18
      digits after the point;
    - [str_float] prints the exact decimal expansion, which is what
      CPython prints for floats with a short expansion such as [0.5] or
      [3.0], and not its shortest round-trip form or its exponent form;
    - [str_list] puts each item between single quotes and escapes
      nothing, which is what CPython prints for items without quotes,
      backslashes or unprintable characters. *)

Module Sample.

Definition is_digit (c : ascii) : bool :=
  let n := nat_of_ascii c in (48 <=? n)%nat && (n <=? 57)%nat.

Fixpoint digits (s : string) (acc : Z) : option Z :=
  match s with
  | EmptyString => Some acc
  | String c rest =>
      if is_digit c then digits rest (10 * acc + Z.of_nat (nat_of_ascii c - 48))%Z
      else None
  end.

Definition unsigned (s : string) : option Z :=
  if nonempty s then digits s 0%Z else None.

(** A sign and then what [body] reads. *)
Definition signed {A} (body : string -> option A) (neg : A -> A) (s : string) : option A :=
  match s with
  | String "-"%char rest => neg <$> body rest
  | String "+"%char rest => body rest
  | _ => body s
  end.

Definition int_literal (s : string) : result Z :=
  match signed unsigned Z.opp s with
  | Some n => Ok n
  | None => Raise (ValueError ("invalid literal for int() with base 10: '" +:+ s +:+ "'"))
  end.

Definition float_of_Z (n : Z) : float := PrimFloat.of_uint63 (Uint63.of_Z n).

(** [i.f] as the quotient of an integer below [2^53] and a power of ten
    up to [10^18]: both are below [2^63] and convert exactly, so that
    the one division rounds once. *)
Definition unsigned_float (s : string) : option float :=
  match split "."%char s with
  | [i] => float_of_Z <$> (n ← unsigned i; guard (n <? 2 ^ 53)%Z;; Some n)
  | [i; f] =>
      n ← unsigned (i +:+ f);
      guard (nonempty i && nonempty f && (n <? 2 ^ 53)%Z && (String.length f <=? 18)%nat);;
      Some (float_of_Z n / float_of_Z (10 ^ Z.of_nat (String.length f)))%float
  | _ => None
  end.

Definition float_literal (s : string) : result float :=
  match signed unsigned_float PrimFloat.opp s with
  | Some x => Ok x
  | None => Raise (ValueError ("could not convert string to float: '" +:+ s +:+ "'"))
  end.

(** [num / 10^k] without the zeros that end its decimal expansion. *)
Fixpoint strip_zeros (k : nat) (num : Z) : nat * Z :=
  match k with
  | O => (O, num)
  | S k' => if (num mod 10 =? 0)%Z then strip_zeros k' (num / 10)%Z else (k, num)
  end.

Fixpoint zeros (n : nat) : string :=
  match n with
  | O => EmptyString
  | S n' => String "0"%char (zeros n')
  end.

Definition decimal_expansion (num : Z) (k : nat) : string :=
  let (k, num) := strip_zeros k num in
  let scale := (10 ^ Z.of_nat k)%Z in
  let frac := str_int (num mod scale) in
  str_int (num / scale) +:+ "."
    +:+ (if (k =? 0)%nat then "0" else zeros (k - String.length frac) +:+ frac).

Definition str_float (x : float) : string :=
  match FloatOps.Prim2SF x with
  | SpecFloat.S754_zero s => if s then "-0.0" else "0.0"
  | SpecFloat.S754_infinity s => if s then "-inf" else "inf"
  | SpecFloat.S754_nan => "nan"
  | SpecFloat.S754_finite s m e =>
      (if s then "-" else EmptyString)
        +:+ (if (0 <=? e)%Z then decimal_expansion (Z.pos m * 2 ^ e) 0
             else decimal_expansion (Z.pos m * 5 ^ (- e)) (Z.to_nat (- e)))
  end.

Definition str_list (l : list string) : string :=
  "[" +:+ join ", " (map (fun s => "'" +:+ s +:+ "'") l) +:+ "]".

#[export] Instance runtime : Runtime := {|
  py_int := int_literal;
  py_float := float_literal;
  py_str_float := str_float;
  py_str_list := str_list
|}.

End Sample.

(** ** The words of the design document

    The notions the design document uses to describe the code, written
    down from its text so that the code can be compared with them. *)

Module Design.

(** The fallback order of [value]: the environment entry under the
    declared coercion, else the declared default, else the zero value. *)
Definition fallback {t} (coerce : string -> result (denote t)) (zero : denote t)
    (p : Param t) (env : environ) : result (denote t) :=
  match env !! name p with
  | Some entry => coerce entry
  | None =>
      match default p with
      | Some d => Ok d
      | None => Ok zero
      end
  end.

(** "string as-is". *)
Definition as_is (entry : string) : result string := Ok entry.

(** "list split on ','". *)
Definition split_on_comma (entry : string) : result (list string) :=
  Ok (split ","%char entry).

(** "env string split on ',', empty segments dropped". *)
Definition split_drop_empty (entry : string) : result (list string) :=
  Ok (List.filter nonempty (split ","%char entry)).

Definition is_upper (c : ascii) : bool :=
  let n := nat_of_ascii c in (65 <=? n)%nat && (n <=? 90)%nat.

Definition is_lower (c : ascii) : bool :=
  let n := nat_of_ascii c in (97 <=? n)%nat && (n <=? 122)%nat.

Definition upper_ascii (c : ascii) : ascii :=
  if is_lower c then ascii_of_nat (nat_of_ascii c - 32) else c.

(** [case_variant s tok]: [s] is the token [tok] with some of its
    letters in upper case. *)
Inductive case_variant : string -> string -> Prop :=
| case_variant_end : case_variant EmptyString EmptyString
| case_variant_same (c : ascii) (s tok : string) :
    case_variant s tok -> case_variant (String c s) (String c tok)
| case_variant_upper (c : ascii) (s tok : string) :
    is_lower c = true -> case_variant s tok ->
    case_variant (String (upper_ascii c) s) (String c tok).

(** A string none of whose characters is an upper case letter. *)
Fixpoint no_upper (s : string) : bool :=
  match s with
  | EmptyString => true
  | String c rest => negb (is_upper c) && no_upper rest
  end.

(** "case-insensitive match against {true,t,1,y,yes}/{false,f,0,n,no}",
    "unmatched token fails with InvalidBooleanError". *)
Definition token_to_bool (n entry : string) : result bool :=
  if str_in (lower entry) TRUE_TOKENS then Ok true
  else if str_in (lower entry) FALSE_TOKENS then Ok false
  else Raise (InvalidBooleanError n entry).

(** "string literals are double-quoted in the render, non-string
    literals rendered as-is". *)
Definition literal `{Runtime} {t : ty} : denote t -> string :=
  match t with
  | TStr => fun s => dquote +:+ s +:+ dquote
  | TInt => str_int
  | TFloat => py_str_float
  | TBool => str_bool
  | TList => py_str_list
  end.

(** The comparators: "one of ==, >, >=, <, <=", each with the
    comparison it stands for. *)
Definition comparators : list (string * (forall t : ty, denote t -> denote t -> bool)) :=
  [ ("==", @py_eq); (">", @py_gt); (">=", @py_ge); ("<", @py_lt); ("<=", @py_le) ].

(** "a type tag derived from the param's concrete variant
    (boolean|int|float|secret|list|string)"; the base class has none. *)
Definition type_tag (p : AnyParam) : option string :=
  match p with
  | ASecret _ => Some "secret"
  | AParam q =>
      match cls q with
      | BoolParam => Some "boolean"
      | IntParam => Some "int"
      | FloatParam => Some "float"
      | ListParam => Some "list"
      | StringParam | _DefaultStringParam => Some "string"
      | BaseParam _ => None
      end
  end.

(** "plus default when the param carries one (list defaults flattened
    to a comma-joined string)". *)
Definition default_entry (p : AnyParam) : option data :=
  match p with
  | ASecret _ => None
  | AParam q =>
      match cls q in ParamClass t0 return option (denote t0) -> option data with
      | ListParam => fun d => (fun l => PyStr (join "," l)) <$> d
      | _ => fun d => to_data <$> d
      end (default q)
  end.

Definition label_of (p : AnyParam) : option string :=
  match p with
  | AParam q => label q
  | ASecret s => secret_label s
  end.

Definition description_of (p : AnyParam) : option string :=
  match p with
  | AParam q => description q
  | ASecret s => secret_description s
  end.

Definition immutable_of (p : AnyParam) : option bool :=
  match p with
  | AParam q => immutable q
  | ASecret s => secret_immutable s
  end.

(** The invariant of the registry: a key is a valid name, and it maps to
    a param of that name that is not a default param. *)
Definition registry_ok (reg : registry) : Prop :=
  forall (k : string) (p : AnyParam),
    reg !! k = Some p ->
    name_matches k = true /\ param_name p = k /\ is_default p = false.

(** A position in a manifest tree: an attribute of a dataclass instance,
    a key of a dict or an index of a list, one after the other. *)
Inductive step : Type :=
| Attr (field_name : string)
| Item (key : string)
| Index (i : nat).

Fixpoint at_path (d : data) (path : list step) : option data :=
  match path with
  | [] => Some d
  | s :: rest =>
      match s, d with
      | Attr f, PyDataclass fields =>
          match dict_get f fields with
          | Some d' => at_path d' rest
          | None => None
          end
      | Item k, PyDict items =>
          match dict_get k items with
          | Some d' => at_path d' rest
          | None => None
          end
      | Index i, PyList l =>
          match nth_error l i with
          | Some d' => at_path d' rest
          | None => None
          end
      | _, _ => None
      end
  end.

(** The same position in the output, where a dataclass instance has
    become a dict. *)
Definition spec_step (s : step) : step :=
  match s with
  | Attr f => Item f
  | other => other
  end.

(** No key occurs twice in a list of keys. *)
Fixpoint distinct (l : list string) : bool :=
  match l with
  | [] => true
  | k :: rest => negb (str_in k rest) && distinct rest
  end.

(** The trees Python can build: the field names of a dataclass and the
    keys of a dict are pairwise distinct, at every level. *)
Fixpoint unique_keys (d : data) : bool :=
  let fix all_values (l : dict) : bool :=
    match l with
    | [] => true
    | (_, v) :: rest => unique_keys v && all_values rest
    end in
  match d with
  | PyEnum v => unique_keys v
  | PyDataclass fields => distinct (keys fields) && all_values fields
  | PyList l => forallb unique_keys l
  | PyDict items => distinct (keys items) && all_values items
  | _ => true
  end.

(** "Serialized to the reserved literal token": what stands in the
    output in place of the marker is a literal of the manifest format,
    "a dedicated marker string" or another literal set aside for it: a
    text, a number, a truth value or the null literal. *)
Definition reserved_token (d : data) : bool :=
  match d with
  | PyNone | PyBool _ | PyInt _ | PyFloat _ | PyStr _ => true
  | _ => false
  end.

End Design.

Import Design.

(** ** A manifest to run the serializer on *)

Module Examples.

Definition RETRY : Param TBool := param BoolParam "RETRY" (Some false).
Definition MEMORY : Param TInt := param IntParam "MEMORY" (Some 256%Z).
Definition REGIONS : Param TList := param ListParam "REGIONS" (Some ["a"; "b"]).
Definition API_KEY : SecretParam := secret "API_KEY".

(** An event-triggered function: its memory is a param, its retry flag
    a comparison, its instance limit and the egress setting of its
    connector are explicitly cleared. *)
Definition on_event : ManifestEndpoint := {|
  entryPoint := PyStr "on_event";
  region := PyList [PyStr "us-central1"];
  platform := PyStr "gcfv2";
  availableMemoryMb := PyExpression (OfParam MEMORY);
  maxInstances := SENTINEL;
  minInstances := PyNone;
  concurrency := PyInt 80;
  serviceAccountEmail := PyNone;
  timeoutSeconds := PyNone;
  cpu := PyNone;
  vpc := VpcSettings_obj {| connector := "conn"; egressSettings := Some SENTINEL |};
  labels := PyNone;
  ingressSettings := PyNone;
  secretEnvironmentVariables := PyList [PyDict [("key", PyStr "API_KEY")]];
  httpsTrigger := PyNone;
  callableTrigger := PyNone;
  eventTrigger :=
    EventTrigger_obj {|
      eventFilters := Some [("bucket", PyExpression (OfParam STORAGE_BUCKET))];
      eventFilterPathPatterns := None;
      channel := None;
      eventType := "google.cloud.storage.object.v1.finalized";
      retry := PyExpression (equals RETRY true)
    |};
  scheduleTrigger := PyNone;
  blockingTrigger := PyNone
|}.

Definition stack : ManifestStack := {|
  endpoints := [("on_event", on_event)];
  specVersion := "v1alpha1";
  params := Some [AParam RETRY; AParam MEMORY; AParam REGIONS; ASecret API_KEY];
  requiredAPIs := []
|}.

End Examples.

(** ** Notions for the further properties *)

Module Notions.

(** The line feed, and a string made of name characters only. *)
Definition newline : string := String "010"%char EmptyString.

Fixpoint name_chars (s : string) : bool :=
  match s with
  | EmptyString => true
  | String c rest => name_char c && name_chars rest
  end.

(** [registers k p]: constructed on a registry without the key [k], the
    param [p] puts itself under [k]. *)
Definition registers (k : string) (p : AnyParam) : bool :=
  negb (is_default p) && name_matches (param_name p) && String.eqb (param_name p) k.

(** The names of the params and secrets an expression is built on. *)
Fixpoint names {t} (e : Expression t) : list string :=
  match e with
  | BareExpression _ => []
  | TernaryExpression test _ _ => names test
  | CompareExpression _ lhs _ => names lhs
  | OfParam p => [name p]
  | OfSecretParam s => [secret_name s]
  end.

(** One of the five comparators [CompareExpression.value] knows. *)
Definition known_comparator (op : string) : bool :=
  str_in op ["=="; ">"; ">="; "<"; "<="].

(** A param class whose [value] calls no conversion that can fail:
    [StringParam], [ListParam] and [_DefaultStringParam]. *)
Definition reads_text {t} (c : ParamClass t) : bool :=
  match c with
  | StringParam | ListParam | _DefaultStringParam => true
  | _ => false
  end.

(** An expression over such params and secrets only, with known
    comparators. *)
Fixpoint text_only {t} (e : Expression t) : bool :=
  match e with
  | BareExpression _ => false
  | TernaryExpression test _ _ => text_only test
  | CompareExpression op lhs _ => known_comparator op && text_only lhs
  | OfParam p => reads_text (cls p)
  | OfSecretParam _ => true
  end.

(** [has_char c s]: the character [c] occurs in [s]. *)
Fixpoint has_char (c : ascii) (s : string) : bool :=
  match s with
  | EmptyString => false
  | String c' rest => Ascii.eqb c' c || has_char c rest
  end.

(** The five types but [float], whose [==] is not equality on [nan]. *)
Definition exact (t : ty) : bool :=
  match t with
  | TFloat => false
  | _ => true
  end.

(** A scalar: a bool, an int, a float or a string. *)
Definition scalar (d : data) : bool :=
  match d with
  | PyBool _ | PyInt _ | PyFloat _ | PyStr _ => true
  | _ => false
  end.

(** A tree whose enum members all have a scalar value, as the enums of
    this code base have. *)
Fixpoint enums_scalar (d : data) : bool :=
  let fix all_values (l : dict) : bool :=
    match l with
    | [] => true
    | (_, v) :: rest => enums_scalar v && all_values rest
    end in
  match d with
  | PyEnum v => scalar v
  | PyDataclass fields => all_values fields
  | PyList l => forallb enums_scalar l
  | PyDict items => all_values items
  | _ => true
  end.

(** Plain data: [None], scalars, the marker, and lists and dicts of
    plain data; no enum member, expression or dataclass instance. *)
Fixpoint plain (d : data) : bool :=
  let fix all_values (l : dict) : bool :=
    match l with
    | [] => true
    | (_, v) :: rest => plain v && all_values rest
    end in
  match d with
  | PyEnum _ | PyExpression _ | PyDataclass _ => false
  | PyList l => forallb plain l
  | PyDict items => all_values items
  | _ => true
  end.

(** The items [f] keeps, each with what [f] makes of its value, in
    their order. *)
Fixpoint kept (f : data -> option data) (items : dict) : dict :=
  match items with
  | [] => []
  | (k, v) :: rest =>
      match f v with
      | Some w => (k, w) :: kept f rest
      | None => kept f rest
      end
  end.

(** The conversion of an endpoint and of a required API, as they stand
    in the output. *)
Definition endpoint_spec `{Runtime} (e : ManifestEndpoint) : data :=
  PyDict (_dataclass_to_spec (ManifestEndpoint_fields e)).

Definition api_spec (a : ManifestRequiredApi) : data :=
  PyDict [("api", PyStr (api a)); ("reason", PyStr (reason a))].

(** [isinstance(param, C)] fails for each class [_param_to_spec] knows. *)
Definition unsupported (p : AnyParam) : bool :=
  match type_tag p with
  | Some _ => false
  | None => true
  end.

End Notions.

Import Notions.

(** * Properties

    Every general statement is proved for an arbitrary [Runtime]; the
    closed examples run on [Sample.runtime]. *)

#[local] Existing Instance Sample.runtime.

(** ** The model at work *)

Example split_pieces :
  split ","%char "a,,b" = ["a"; EmptyString; "b"] /\
  split ","%char EmptyString = [EmptyString] /\
  split ","%char "a," = ["a"; EmptyString].
Proof. repeat split. Qed.

Example names_accepted :
  name_matches "UPPER_SNAKE_1" = true /\
  name_matches "lower" = false /\
  name_matches EmptyString = false /\
  name_matches "WITH SPACE" = false /\
  name_matches ("ENDS_WITH_NEWLINE" +:+ String "010"%char EmptyString) = true.
Proof. repeat split. Qed.

Example values_from_the_environment :
  let env : environ := {["N" := "42"]} ∪ {["F" := "2.5"]} ∪ {["L" := ",x,,y,"]} in
  value (OfParam (param IntParam "N" (Some 7%Z))) env = Ok 42%Z /\
  value (OfParam (param FloatParam "F" None)) env = Ok 2.5%float /\
  value (OfParam (param ListParam "L" None)) env = Ok ["x"; "y"] /\
  value (OfSecretParam (secret "S")) env = Ok EmptyString /\
  value (OfParam (param IntParam "M" (Some 7%Z))) env = Ok 7%Z /\
  value (OfParam (param (BaseParam TInt) "N" None)) env = Raise NotImplemented.
Proof. repeat split. Qed.

Example renderings :
  str (TernaryExpression (t := TFloat)
         (CompareExpression (t := TList) "<=" (OfParam Examples.REGIONS) ["a"])
         0.5%float 2%float)
  = "params.REGIONS <= ['a'] ? 0.5 : 2.0" /\
  to_cel (then_ (t := TInt) (secret_equals Examples.API_KEY "k") 1%Z 0%Z)
  = "{{ params.API_KEY == " +:+ dquote +:+ "k" +:+ dquote +:+ " ? 1 : 0 }}".
Proof. repeat split. Qed.

Example constructions :
  let x := AParam (param StringParam "X" None) in
  construct_all [x; AParam (param IntParam "X" None); ASecret (secret "bad name");
                 AParam (param _DefaultStringParam "X" None); ASecret (secret "Y")] ∅
  = ([Ok tt; Raise (DuplicateParamError "X"); Raise InvalidNameError; Ok tt; Ok tt],
     {["X" := x]} ∪ {["Y" := ASecret (secret "Y")]}).
Proof. vm_compute. reflexivity. Qed.

Example stack_conversion :
  manifest_to_spec_dict Examples.stack
  = Ok [ ("endpoints",
          PyDict
            [ ("on_event",
               PyDict
                 [ ("entryPoint", PyStr "on_event");
                   ("region", PyList [PyStr "us-central1"]);
                   ("platform", PyStr "gcfv2");
                   ("availableMemoryMb", PyStr "{{ params.MEMORY }}");
                   ("maxInstances", SENTINEL);
                   ("concurrency", PyInt 80);
                   ("vpc", PyDict [("connector", PyStr "conn"); ("egressSettings", SENTINEL)]);
                   ("secretEnvironmentVariables", PyList [PyDict [("key", PyStr "API_KEY")]]);
                   ("eventTrigger",
                    PyDict
                      [ ("eventFilters",
                         PyDict [("bucket", PyStr "{{ params.STORAGE_BUCKET }}")]);
                        ("eventType", PyStr "google.cloud.storage.object.v1.finalized");
                        ("retry", PyStr "{{ params.RETRY == True }}") ]) ]) ]);
         ("specVersion", PyStr "v1alpha1");
         ("params",
          PyList
            [ PyDict [("name", PyStr "RETRY"); ("default", PyBool false);
                      ("type", PyStr "boolean")];
              PyDict [("name", PyStr "MEMORY"); ("default", PyInt 256);
                      ("type", PyStr "int")];
              PyDict [("name", PyStr "REGIONS"); ("default", PyStr "a,b");
                      ("type", PyStr "list")];
              PyDict [("name", PyStr "API_KEY"); ("type", PyStr "secret")] ]);
         ("requiredAPIs", PyList []) ].
Proof. reflexivity. Qed.

(** ** Typed params: the fallback order of [value] *)

Section ParamValue.
Context `{Runtime}.

Lemma value_of_param {t} (p : Param t) (env : environ) :
  value (OfParam p) env = Param_value p env.
Proof. reflexivity. Qed.

(** A goal about the [value] of a param [p] under the hypothesis that
    fixes the class of [p]: take the fields apart, fix the class and run
    the method of that class on both states of the entry. *)
Ltac of_class env :=
  let c := fresh "c" in
  let n := fresh "n" in
  let Hc := fresh "Hc" in
  intros [c n ? ? ? ? ?] Hc; simpl in Hc; subst c;
  rewrite value_of_param; unfold Param_value, fallback; simpl;
  destruct (env !! n); reflexivity.

(** C1, as amended.  For each of [StringParam], [IntParam],
    [FloatParam], [BoolParam] and [ListParam] and every environment,
    [value()] follows the fallback order: an environment entry for the
    param's name is returned under the declared coercion (the string as
    it is, even when empty; [int(entry)]; [float(entry)]; the boolean
    token; the pieces between commas with the empty pieces dropped),
    whatever the default; without an entry the declared default is
    returned; without a default the zero value of the type. *)
Theorem value_fallback_order (env : environ) :
  (forall p : Param TStr, cls p = StringParam ->
     value (OfParam p) env = fallback (t:=TStr) as_is EmptyString p env /\
     (env !! name p = Some EmptyString -> value (OfParam p) env = Ok EmptyString)) /\
  (forall p : Param TInt, cls p = IntParam ->
     value (OfParam p) env = fallback (t:=TInt) py_int 0%Z p env) /\
  (forall p : Param TFloat, cls p = FloatParam ->
     value (OfParam p) env = fallback (t:=TFloat) py_float 0%float p env) /\
  (forall p : Param TBool, cls p = BoolParam ->
     value (OfParam p) env = fallback (t:=TBool) (token_to_bool (name p)) false p env) /\
  (forall p : Param TList, cls p = ListParam ->
     value (OfParam p) env = fallback (t:=TList) split_drop_empty [] p env).
Proof.
  split; [|repeat split]; intros p Hc.
  - assert (Hp : value (OfParam p) env = fallback (t:=TStr) as_is EmptyString p env)
      by (revert p Hc; of_class env).
    split; [exact Hp|]. intros Hentry. rewrite Hp. unfold fallback.
    rewrite Hentry. reflexivity.
  - revert p Hc. of_class env.
  - revert p Hc. of_class env.
  - revert p Hc. of_class env.
  - revert p Hc. of_class env.
Qed.

End ParamValue.

(** The fallback order at work: an empty entry wins over the default of
    a [StringParam], and a [ListParam] with the entry [a,b] and no
    default. *)
Lemma value_fallback_order_witness :
  value (OfParam (param StringParam "X" (Some "dflt"))) {["X" := EmptyString]} = Ok EmptyString /\
  value (OfParam (param ListParam "L" None)) {["L" := "a,b"]} = Ok ["a"; "b"].
Proof.
  pose proof (value_fallback_order (H := Sample.runtime)) as F.
  split.
  - destruct (F {["X" := EmptyString]}) as (Fs & _).
    exact (proj2 (Fs (param StringParam "X" (Some "dflt")) eq_refl) eq_refl).
  - destruct (F {["L" := "a,b"]}) as (_ & _ & _ & _ & Fl).
    rewrite (Fl (param ListParam "L" None) eq_refl). reflexivity.
Defined.

(** C1, as stated, fails for a [ListParam] whose entry has an empty
    piece: the entry [a,,b] split on the comma is [a], the empty string
    and [b], and [value()] returns [a] and [b] only. *)
Lemma value_list_not_plain_split :
  let p := param ListParam "L" None in
  let env : environ := {["L" := "a,,b"]} in
  value (OfParam p) env = Ok ["a"; "b"] /\
  fallback (t:=TList) split_on_comma [] p env = Ok ["a"; EmptyString; "b"] /\
  value (OfParam p) env <> fallback (t:=TList) split_on_comma [] p env.
Proof.
  split; [reflexivity | split; [reflexivity | discriminate]].
Qed.

(** ** Boolean tokens *)

Lemma lower_ascii_fix (c : ascii) : is_upper c = false -> lower_ascii c = c.
Proof. unfold is_upper, lower_ascii. simpl. intros ->. reflexivity. Qed.

Lemma lower_upper_ascii (c : ascii) :
  is_lower c = true -> lower_ascii (upper_ascii c) = c.
Proof.
  destruct c as [[] [] [] [] [] [] [] []]; vm_compute; intros E;
    first [discriminate E | reflexivity].
Qed.

Lemma upper_lower_ascii (c : ascii) :
  is_upper c = true ->
  is_lower (lower_ascii c) = true /\ upper_ascii (lower_ascii c) = c.
Proof.
  destruct c as [[] [] [] [] [] [] [] []]; vm_compute; intros E;
    first [discriminate E | split; reflexivity].
Qed.

Lemma lower_no_upper (tok : string) : no_upper tok = true -> lower tok = tok.
Proof.
  induction tok as [|c tok IH]; simpl; [reflexivity|].
  intros [Hc Htok]%andb_prop. apply negb_true_iff in Hc.
  rewrite (lower_ascii_fix c Hc), (IH Htok). reflexivity.
Qed.

Lemma case_variant_lower (s tok : string) :
  no_upper tok = true -> case_variant s tok -> lower s = tok.
Proof.
  intros Htok V. induction V as [|c s tok V IH|c s tok Hc V IH]; simpl in *.
  - reflexivity.
  - apply andb_prop in Htok as [Hc Htok]. apply negb_true_iff in Hc.
    rewrite (lower_ascii_fix c Hc), (IH Htok). reflexivity.
  - apply andb_prop in Htok as [_ Htok].
    rewrite (lower_upper_ascii c Hc), (IH Htok). reflexivity.
Qed.

Lemma lower_case_variant (s : string) : case_variant s (lower s).
Proof.
  induction s as [|c s IH]; simpl; [constructor|].
  destruct (is_upper c) eqn:Hc.
  - destruct (upper_lower_ascii c Hc) as [Hl Hu].
    rewrite <- Hu at 1. apply case_variant_upper; assumption.
  - rewrite (lower_ascii_fix c Hc). apply case_variant_same, IH.
Qed.

(** Being a case variant of a token written in lower case is what
    [s.lower() == tok] tests. *)
Lemma case_variant_iff (s tok : string) :
  no_upper tok = true -> (case_variant s tok <-> lower s = tok).
Proof.
  intros Htok. split; [apply case_variant_lower, Htok|].
  intros <-. apply lower_case_variant.
Qed.

Lemma str_in_In (x : string) (l : list string) : str_in x l = true <-> In x l.
Proof.
  unfold str_in. rewrite existsb_exists. split.
  - intros (y & Hy & E). apply String.eqb_eq in E. subst y. exact Hy.
  - intros Hx. exists x. split; [exact Hx | apply String.eqb_refl].
Qed.

(** A goal that is an evaluation for each member of a list written out
    in full: take the members one by one. *)
Ltac each_member Hin :=
  simpl in Hin;
  repeat (destruct Hin as [<- | Hin]; [reflexivity|]);
  destruct Hin.

Lemma tokens_no_upper (tok : string) :
  In tok (TRUE_TOKENS ++ FALSE_TOKENS) -> no_upper tok = true.
Proof. intros Hin. each_member Hin. Qed.

(** [s.lower() in tokens] holds exactly for the case variants of the
    tokens. *)
Lemma str_in_lower_tokens (s : string) (tokens : list string) :
  (forall tok, In tok tokens -> no_upper tok = true) ->
  str_in (lower s) tokens = true <-> exists tok, In tok tokens /\ case_variant s tok.
Proof.
  intros Hlow. rewrite str_in_In. split.
  - intros Hin. exists (lower s). split; [exact Hin | apply lower_case_variant].
  - intros (tok & Hin & V).
    rewrite (case_variant_lower s tok (Hlow tok Hin) V). exact Hin.
Qed.

Lemma true_tokens_no_upper (tok : string) : In tok TRUE_TOKENS -> no_upper tok = true.
Proof. intros Hin. apply tokens_no_upper, in_or_app. left. exact Hin. Qed.

Lemma false_tokens_no_upper (tok : string) : In tok FALSE_TOKENS -> no_upper tok = true.
Proof. intros Hin. apply tokens_no_upper, in_or_app. right. exact Hin. Qed.

(** No string is a variant of a token of each set. *)
Lemma false_token_not_true (x : string) :
  In x FALSE_TOKENS -> str_in x TRUE_TOKENS = false.
Proof. intros Hin. each_member Hin. Qed.

Section BoolParam.
Context `{Runtime}.

(** C8.  For a [BoolParam] whose name has an environment entry,
    [value()] is true when the entry is a case variant of one of
    true, t, 1, y, yes; false when it is a case variant of one of
    false, f, 0, n, no; and raises [InvalidBooleanError] for every other
    entry.  The default plays no part in any of the three cases. *)
Theorem bool_param_tokens (p : Param TBool) (env : environ) (entry : string) :
  cls p = BoolParam ->
  env !! name p = Some entry ->
  ((exists tok, In tok TRUE_TOKENS /\ case_variant entry tok) ->
     value (OfParam p) env = Ok true) /\
  ((exists tok, In tok FALSE_TOKENS /\ case_variant entry tok) ->
     value (OfParam p) env = Ok false) /\
  ((forall tok, In tok (TRUE_TOKENS ++ FALSE_TOKENS) -> ~ case_variant entry tok) ->
     value (OfParam p) env = Raise (InvalidBooleanError (name p) entry)).
Proof.
  destruct p as [c n d l ds im inp]. cbn [cls name]. intros -> Hentry.
  rewrite value_of_param. unfold Param_value. cbn [cls name default].
  rewrite Hentry.
  repeat split.
  - intros Ht. apply (str_in_lower_tokens _ _ true_tokens_no_upper) in Ht.
    rewrite Ht. reflexivity.
  - intros Hf. apply (str_in_lower_tokens _ _ false_tokens_no_upper) in Hf.
    rewrite (false_token_not_true _ (proj1 (str_in_In _ _) Hf)), Hf. reflexivity.
  - intros Hnone.
    destruct (str_in (lower entry) TRUE_TOKENS) eqn:Ht.
    + apply (str_in_lower_tokens _ _ true_tokens_no_upper) in Ht as (tok & Hin & V).
      exfalso. apply (Hnone tok); [apply in_or_app; left; exact Hin | exact V].
    + destruct (str_in (lower entry) FALSE_TOKENS) eqn:Hf; [|reflexivity].
      apply (str_in_lower_tokens _ _ false_tokens_no_upper) in Hf as (tok & Hin & V).
      exfalso. apply (Hnone tok); [apply in_or_app; right; exact Hin | exact V].
Qed.

End BoolParam.

(** The entry [YeS] of a [BoolParam] whose default is false. *)
Lemma bool_param_tokens_witness :
  value (OfParam (param BoolParam "B" (Some false))) {["B" := "YeS"]} = Ok true.
Proof.
  refine (proj1 (bool_param_tokens (param BoolParam "B" (Some false))
                   {["B" := "YeS"]} "YeS" eq_refl eq_refl) _).
  exists "yes". split; [simpl; tauto|].
  apply case_variant_iff; reflexivity.
Defined.

(** ** Comparisons and conditionals *)

Section Expressions.
Context `{Runtime}.

Lemma value_compare {t} (op : string) (lhs : Expression t) (rhs : denote t) (env : environ) :
  value (CompareExpression op lhs rhs) env =
  bind (value lhs env) (fun l =>
    if String.eqb op "==" then Ok (py_eq l rhs)
    else if String.eqb op ">" then Ok (py_gt l rhs)
    else if String.eqb op ">=" then Ok (py_ge l rhs)
    else if String.eqb op "<" then Ok (py_lt l rhs)
    else if String.eqb op "<=" then Ok (py_le l rhs)
    else Raise (InvalidComparatorError op)).
Proof. reflexivity. Qed.

Lemma value_ternary {t} (test : Expression TBool) (a b : denote t) (env : environ) :
  value (TernaryExpression test a b) env =
  bind (value test env) (fun c => Ok (if c then a else b)).
Proof. reflexivity. Qed.

(** C6, as amended.  When [left.value()] returns [l], the [value()] of
    a [CompareExpression] whose comparator is one of ==, >, >=, <, <= is
    the result of comparing [l] with the literal [right] under that
    comparator, and for every other comparator string it raises
    [InvalidComparatorError].  When [left.value()] raises, [value()]
    raises the same exception, whatever the comparator. *)
Theorem compare_value {t} (op : string) (lhs : Expression t) (rhs : denote t)
    (env : environ) :
  (forall l f, value lhs env = Ok l -> In (op, f) comparators ->
     value (CompareExpression op lhs rhs) env = Ok (f t l rhs)) /\
  (forall l, value lhs env = Ok l -> ~ In op (map fst comparators) ->
     value (CompareExpression op lhs rhs) env = Raise (InvalidComparatorError op)) /\
  (forall e, value lhs env = Raise e ->
     value (CompareExpression op lhs rhs) env = Raise e).
Proof.
  rewrite value_compare. repeat split.
  - intros l f -> Hin. simpl in Hin.
    repeat (destruct Hin as [Hin | Hin];
            [injection Hin as <- <-; reflexivity|]).
    destruct Hin.
  - intros l -> Hop. simpl in Hop. simpl.
    repeat match goal with
           | |- context [String.eqb op ?s] =>
               destruct (String.eqb_spec op s) as [-> | _]; [exfalso; tauto|]
           end.
    reflexivity.
  - intros e ->. reflexivity.
Qed.

(** C9.  The [value()] of a [TernaryExpression] is [if_true] when
    [test.value()] is true and [if_false] when it is false.  With no
    environment entry for its name, an [IntParam] with default 5
    compared by [>] with 3 has the value true, and the same comparison
    composed by [then("a", "b")] has the value [a]. *)
Theorem ternary_value :
  (forall (t : ty) (test : Expression TBool) (a b : denote t) (env : environ) (c : bool),
     value test env = Ok c ->
     value (TernaryExpression test a b) env = Ok (if c then a else b)) /\
  (forall (n : string) (env : environ),
     env !! n = None ->
     let cmp := CompareExpression (t := TInt) ">" (OfParam (param IntParam n (Some 5%Z))) 3%Z in
     value cmp env = Ok true /\
     value (then_ (t := TStr) cmp "a" "b") env = Ok "a").
Proof.
  split.
  - intros t test a b env c Hc. rewrite value_ternary, Hc. reflexivity.
  - intros n env Hn. cbv zeta. unfold then_.
    rewrite value_ternary, value_compare, value_of_param.
    unfold Param_value, param. cbn [cls name default]. rewrite Hn.
    split; reflexivity.
Qed.

(** C7.  Rendering composes text and nothing else: a comparison is its
    left side, the comparator and the right literal separated by single
    spaces; a conditional is its test, a question mark, the literal of
    the true branch, a colon and the literal of the false branch; a
    string literal is put between double quotes and any other literal
    is printed as it is; a param or secret on the left renders as
    [params.NAME] without quotes; the braced form puts the whole
    rendering between [{{ ] and [ }}].  In particular the comparison of
    [StringParam("X")] with ["y"] under [==] renders as
    [params.X == "y"]. *)
Theorem render_exact :
  (forall (t : ty) (op : string) (lhs : Expression t) (rhs : denote t),
     str (CompareExpression op lhs rhs) = str lhs +:+ " " +:+ op +:+ " " +:+ literal rhs) /\
  (forall (t : ty) (test : Expression TBool) (a b : denote t),
     str (TernaryExpression test a b) =
     str test +:+ " ? " +:+ literal a +:+ " : " +:+ literal b) /\
  (forall (t : ty) (p : Param t), str (OfParam p) = "params." +:+ name p) /\
  (forall s : SecretParam, str (OfSecretParam s) = "params." +:+ secret_name s) /\
  (forall (t : ty) (e : Expression t), to_cel e = "{{ " +:+ str e +:+ " }}") /\
  str (CompareExpression (t := TStr) "==" (OfParam (param StringParam "X" None)) "y")
    = "params.X == " +:+ dquote +:+ "y" +:+ dquote.
Proof.
  repeat split.
  - intros t op lhs rhs. destruct t; reflexivity.
  - intros t test a b. destruct t; reflexivity.
Qed.

End Expressions.

(** The two clauses of C6 at work: an [IntParam] with default 5 and no
    entry compared with 3 under [>=], then under the unknown [!=]. *)
Lemma compare_value_witness :
  let lhs := OfParam (param IntParam "N" (Some 5%Z)) in
  value (CompareExpression (t := TInt) ">=" lhs 3%Z) ∅ = Ok true /\
  value (CompareExpression (t := TInt) "!=" lhs 3%Z) ∅ = Raise (InvalidComparatorError "!=").
Proof.
  intros lhs. split.
  - refine (proj1 (compare_value (t := TInt) ">=" lhs 3%Z ∅) 5%Z (@py_ge) eq_refl _).
    simpl. tauto.
  - refine (proj1 (proj2 (compare_value (t := TInt) "!=" lhs 3%Z ∅)) 5%Z eq_refl _).
    simpl. intros Hin.
    repeat (destruct Hin as [Hin | Hin]; [discriminate Hin|]). destruct Hin.
Defined.

(** C6, as stated, fails when the left side raises: with the unknown
    comparator [!=], a [BoolParam] whose entry is no boolean token makes
    [value()] raise [InvalidBooleanError], and a param of the base class
    makes it raise [NotImplementedError]; neither is
    [InvalidComparatorError]. *)
Lemma compare_unknown_after_left :
  let bad := CompareExpression (t := TBool) "!=" (OfParam (param BoolParam "B" None)) true in
  let base := CompareExpression (t := TInt) "!=" (OfParam (param (BaseParam TInt) "N" None)) 1%Z in
  value bad {["B" := "maybe"]} = Raise (InvalidBooleanError "B" "maybe") /\
  value bad {["B" := "maybe"]} <> Raise (InvalidComparatorError "!=") /\
  value base ∅ = Raise NotImplemented /\
  value base ∅ <> Raise (InvalidComparatorError "!=").
Proof.
  cbv zeta. repeat split; try reflexivity; discriminate.
Qed.

(** The first clause of C9 at work, on a test that is false. *)
Lemma ternary_value_witness :
  value (TernaryExpression (t := TInt)
           (CompareExpression (t := TInt) "<" (OfParam (param IntParam "N" (Some 5%Z))) 3%Z)
           1%Z 2%Z) ∅ = Ok 2%Z /\
  value (then_ (t := TStr)
           (CompareExpression (t := TInt) ">" (OfParam (param IntParam "N" (Some 5%Z))) 3%Z)
           "a" "b") ∅ = Ok "a".
Proof.
  split.
  - exact (proj1 ternary_value TInt
             (CompareExpression (t := TInt) "<" (OfParam (param IntParam "N" (Some 5%Z))) 3%Z)
             1%Z 2%Z ∅ false eq_refl).
  - exact (proj2 (proj2 ternary_value "N" ∅ eq_refl)).
Defined.

(** ** The registry *)

Lemma construct_default (p : AnyParam) (reg : registry) :
  is_default p = true -> construct p reg = (Ok tt, reg).
Proof.
  destruct p as [t q | s]; simpl; [|discriminate].
  intros Hd. unfold Param_post_init. rewrite Hd. reflexivity.
Qed.

Lemma construct_invalid (p : AnyParam) (reg : registry) :
  is_default p = false -> name_matches (param_name p) = false ->
  construct p reg = (Raise InvalidNameError, reg).
Proof.
  destruct p as [t q | s]; simpl; intros Hd Hn.
  - unfold Param_post_init. rewrite Hd, Hn. reflexivity.
  - unfold SecretParam_post_init. rewrite Hn. reflexivity.
Qed.

Lemma construct_duplicate (p q : AnyParam) (reg : registry) :
  is_default p = false -> name_matches (param_name p) = true ->
  reg !! param_name p = Some q ->
  construct p reg = (Raise (DuplicateParamError (param_name p)), reg).
Proof.
  destruct p as [t p | s]; simpl; intros Hd Hn Hq.
  - unfold Param_post_init. rewrite Hd, Hn, Hq. reflexivity.
  - unfold SecretParam_post_init. rewrite Hn, Hq. reflexivity.
Qed.

Lemma construct_fresh (p : AnyParam) (reg : registry) :
  is_default p = false -> name_matches (param_name p) = true ->
  reg !! param_name p = None ->
  construct p reg = (Ok tt, <[param_name p := p]> reg).
Proof.
  destruct p as [t p | s]; simpl; intros Hd Hn Hq.
  - unfold Param_post_init. rewrite Hd, Hn, Hq. reflexivity.
  - unfold SecretParam_post_init. rewrite Hn, Hq. reflexivity.
Qed.

(** What a constructor does to the registry, in all four cases. *)
Lemma construct_cases (p : AnyParam) (reg : registry) :
  snd (construct p reg) = reg \/
  (is_default p = false /\ name_matches (param_name p) = true /\
   reg !! param_name p = None /\
   construct p reg = (Ok tt, <[param_name p := p]> reg)).
Proof.
  destruct (is_default p) eqn:Hd.
  { left. rewrite construct_default by exact Hd. reflexivity. }
  destruct (name_matches (param_name p)) eqn:Hn.
  2: { left. rewrite construct_invalid by assumption. reflexivity. }
  destruct (reg !! param_name p) as [q|] eqn:Hq.
  { left. rewrite (construct_duplicate p q) by assumption. reflexivity. }
  right. repeat split; try assumption. apply construct_fresh; assumption.
Qed.

(** A registered name keeps its param whatever is constructed next. *)
Lemma construct_keeps (p q : AnyParam) (reg : registry) (n : string) :
  reg !! n = Some q -> snd (construct p reg) !! n = Some q.
Proof.
  intros Hq. destruct (construct_cases p reg) as [-> | (_ & _ & Hfree & ->)].
  - exact Hq.
  - simpl. rewrite lookup_insert_ne; [exact Hq|].
    intros E. rewrite E, Hq in Hfree. discriminate.
Qed.

Lemma construct_all_cons (p : AnyParam) (ps : list AnyParam) (reg : registry) :
  construct_all (p :: ps) reg =
  (fst (construct p reg) :: fst (construct_all ps (snd (construct p reg))),
   snd (construct_all ps (snd (construct p reg)))).
Proof.
  simpl. destruct (construct p reg) as [r reg1]. simpl.
  destruct (construct_all ps reg1) as [rs reg2]. reflexivity.
Qed.

Lemma run_cons (p : AnyParam) (ps : list AnyParam) (reg : registry) :
  run (p :: ps) reg = run ps (snd (construct p reg)).
Proof. unfold run. rewrite construct_all_cons. reflexivity. Qed.

Lemma run_keeps (ps : list AnyParam) (q : AnyParam) (reg : registry) (n : string) :
  reg !! n = Some q -> run ps reg !! n = Some q.
Proof.
  revert reg. induction ps as [|p ps IH]; intros reg Hq; [exact Hq|].
  rewrite run_cons. apply IH, construct_keeps, Hq.
Qed.

Lemma run_reachable (ps : list AnyParam) (reg : registry) :
  reachable reg -> reachable (run ps reg).
Proof.
  revert reg. induction ps as [|p ps IH]; intros reg Hr; [exact Hr|].
  rewrite run_cons. apply IH. constructor. exact Hr.
Qed.

(** A run over params whose names are valid, pairwise distinct and not
    yet registered raises nothing. *)
Lemma construct_all_distinct (ps : list AnyParam) (reg : registry) :
  NoDup (map param_name ps) ->
  (forall p, In p ps -> name_matches (param_name p) = true /\ reg !! param_name p = None) ->
  Forall (fun r => r = Ok tt) (fst (construct_all ps reg)).
Proof.
  revert reg. induction ps as [|p ps IH]; intros reg Hnd Hps.
  { constructor. }
  rewrite construct_all_cons. cbn [fst]. simpl in Hnd.
  apply NoDup_cons in Hnd as [Hp Hnd].
  destruct (Hps p (or_introl eq_refl)) as [Hn Hfree].
  assert (Hrest : forall q, In q ps ->
            name_matches (param_name q) = true /\
            snd (construct p reg) !! param_name q = None).
  { intros q Hq. destruct (Hps q (or_intror Hq)) as [Hqn Hqfree].
    split; [exact Hqn|].
    destruct (construct_cases p reg) as [-> | (_ & _ & _ & ->)]; [exact Hqfree|].
    simpl. rewrite lookup_insert_ne; [exact Hqfree|].
    intros E. apply Hp. rewrite E. apply list_elem_of_In, in_map, Hq. }
  constructor; [|apply IH; assumption].
  destruct (is_default p) eqn:Hd.
  - rewrite construct_default by exact Hd. reflexivity.
  - rewrite construct_fresh by assumption. reflexivity.
Qed.

(** C2, as amended.  Constructing a [SecretParam], or a [Param] of any
    class but the internal default one, under a valid name that is
    already registered raises [DuplicateParamError] and leaves the
    registry as it was, so that the name still maps to the param
    registered first; no constructor ever replaces a registered param;
    and constructing params whose valid names are pairwise distinct and
    not yet registered never raises. *)
Theorem duplicate_name_rejected :
  (forall (p q : AnyParam) (reg : registry),
     is_default p = false ->
     name_matches (param_name p) = true ->
     reg !! param_name p = Some q ->
     construct p reg = (Raise (DuplicateParamError (param_name p)), reg)) /\
  (forall (p q : AnyParam) (reg : registry) (n : string),
     reg !! n = Some q -> snd (construct p reg) !! n = Some q) /\
  (forall (ps : list AnyParam) (reg : registry),
     NoDup (map param_name ps) ->
     (forall p, In p ps ->
        name_matches (param_name p) = true /\ reg !! param_name p = None) ->
     Forall (fun r => r = Ok tt) (fst (construct_all ps reg))).
Proof.
  split; [exact construct_duplicate|].
  split; [exact construct_keeps | exact construct_all_distinct].
Qed.

(** A second [IntParam] named [X] after a [StringParam] named [X]. *)
Lemma duplicate_name_rejected_witness :
  let first := AParam (param StringParam "X" None) in
  let second := AParam (param IntParam "X" (Some 1%Z)) in
  construct second {["X" := first]} = (Raise (DuplicateParamError "X"), {["X" := first]}).
Proof.
  intros first second.
  exact (proj1 duplicate_name_rejected second first {["X" := first]}
           eq_refl eq_refl eq_refl).
Defined.

(** C2, as stated, fails for the subclass [_DefaultStringParam] of
    [Param]: constructed under a name that is already registered, it
    raises nothing. *)
Lemma default_param_duplicate_accepted :
  let first := AParam (param StringParam "X" None) in
  let reg := snd (construct first ∅) in
  let second := AParam (param _DefaultStringParam "X" None) in
  name_matches "X" = true /\
  reg !! "X" = Some first /\
  fst (construct second reg) = Ok tt /\
  fst (construct second reg) <> Raise (DuplicateParamError "X").
Proof.
  cbv zeta. repeat split; try reflexivity; discriminate.
Qed.

Lemma registry_ok_empty : registry_ok ∅.
Proof. intros k p Hk. rewrite lookup_empty in Hk. discriminate. Qed.

Lemma registry_ok_construct (p : AnyParam) (reg : registry) :
  registry_ok reg -> registry_ok (snd (construct p reg)).
Proof.
  intros Hok. destruct (construct_cases p reg) as [-> | (Hd & Hn & _ & ->)].
  - exact Hok.
  - intros k q. simpl. destruct (decide (param_name p = k)) as [<- | Hne].
    + rewrite lookup_insert_eq. intros [= <-]. auto.
    + rewrite lookup_insert_ne by exact Hne. apply Hok.
Qed.

Lemma reachable_ok (reg : registry) : reachable reg -> registry_ok reg.
Proof.
  induction 1 as [|p reg _ IH]; [apply registry_ok_empty|].
  apply registry_ok_construct, IH.
Qed.

(** What a run registers was constructed in it. *)
Lemma run_registered (ps : list AnyParam) (reg : registry) (k : string) (p : AnyParam) :
  run ps reg !! k = Some p -> reg !! k = Some p \/ In p ps.
Proof.
  revert reg. induction ps as [|q ps IH]; intros reg; [left; assumption|].
  rewrite run_cons. intros Hrun. apply IH in Hrun as [Hq | Hin].
  2: { right. right. exact Hin. }
  destruct (construct_cases q reg) as [E | (_ & _ & _ & E)]; rewrite E in Hq.
  - left. exact Hq.
  - simpl in Hq. destruct (decide (param_name q = k)) as [<- | Hne].
    + rewrite lookup_insert_eq in Hq. injection Hq as <-. right. left. reflexivity.
    + rewrite lookup_insert_ne in Hq by exact Hne. left. exact Hq.
Qed.

Lemma module_init_empty : module_init = ∅.
Proof. reflexivity. Qed.

(** C10.  Constructing a default param returns without any check and
    leaves the registry exactly as it was, whatever its name and
    whatever is registered.  So in every registry a process can reach,
    and in the registry left by any run, every key is a valid name and
    maps to a param of that name which is not a default param and was
    constructed in the run, and which stays there.  After the module's
    own default params are declared the registry is empty, and a param
    of any other class constructed under one of their names, such as
    [GCLOUD_PROJECT], is registered without an exception. *)
Theorem default_param_not_registered :
  (forall (p : AnyParam) (reg : registry),
     is_default p = true -> construct p reg = (Ok tt, reg)) /\
  (forall reg : registry, reachable reg -> registry_ok reg) /\
  (forall (ps : list AnyParam) (k : string) (p : AnyParam),
     run ps ∅ !! k = Some p ->
     In p ps /\ name_matches k = true /\ param_name p = k /\ is_default p = false /\
     forall more : list AnyParam, run more (run ps ∅) !! k = Some p) /\
  module_init = ∅ /\
  (forall p : AnyParam,
     is_default p = false ->
     In (param_name p) (map param_name module_params) ->
     construct p module_init = (Ok tt, {[param_name p := p]})).
Proof.
  split; [exact construct_default|].
  split; [exact reachable_ok|].
  split; [|split; [exact module_init_empty|]].
  - intros ps k p Hk.
    destruct (reachable_ok _ (run_reachable ps ∅ reachable_start) k p Hk)
      as (Hn & Hp & Hd).
    destruct (run_registered ps ∅ k p Hk) as [He | Hin].
    { rewrite lookup_empty in He. discriminate. }
    repeat split; try assumption.
    intros more. apply run_keeps, Hk.
  - intros p Hd Hin. rewrite module_init_empty.
    rewrite construct_fresh; [reflexivity | exact Hd | | apply lookup_empty].
    each_member Hin.
Qed.

(** A default param under an invalid name that is also taken, and a
    [StringParam] named [GCLOUD_PROJECT] after the module was imported. *)
Lemma default_param_not_registered_witness :
  let user := AParam (param StringParam "GCLOUD_PROJECT" None) in
  let reg : registry := {["taken" := user]} in
  construct (AParam (param _DefaultStringParam "taken" None)) reg = (Ok tt, reg) /\
  construct user module_init = (Ok tt, {["GCLOUD_PROJECT" := user]}).
Proof.
  intros user reg. split.
  - exact (proj1 default_param_not_registered
             (AParam (param _DefaultStringParam "taken" None)) reg eq_refl).
  - refine (proj2 (proj2 (proj2 (proj2 default_param_not_registered))) user eq_refl _).
    simpl. tauto.
Defined.

(** ** The serializer *)

Lemma dict_get_set_eq (k : string) (v : data) (out : dict) :
  dict_get k (dict_set k v out) = Some v.
Proof.
  induction out as [|[k' v'] out IH]; simpl.
  - rewrite String.eqb_refl. reflexivity.
  - destruct (String.eqb_spec k' k) as [-> | Hne]; simpl.
    + rewrite String.eqb_refl. reflexivity.
    + destruct (String.eqb_spec k' k) as [E | _]; [contradiction | exact IH].
Qed.

Lemma dict_get_set_ne (k k' : string) (v : data) (out : dict) :
  k <> k' -> dict_get k' (dict_set k v out) = dict_get k' out.
Proof.
  intros Hne. induction out as [|[k0 v0] out IH]; simpl.
  - destruct (String.eqb_spec k k') as [E | _]; [contradiction | reflexivity].
  - destruct (String.eqb_spec k0 k) as [-> | Hk0]; simpl.
    + destruct (String.eqb_spec k k') as [E | _]; [contradiction | reflexivity].
    + rewrite IH. reflexivity.
Qed.

Lemma dict_get_In (k : string) (v : data) (items : dict) :
  dict_get k items = Some v -> In (k, v) items.
Proof.
  induction items as [|[k0 v0] items IH]; simpl; [discriminate|].
  destruct (String.eqb_spec k0 k) as [-> | _].
  - intros [= ->]. left. reflexivity.
  - intros Hk. right. apply IH, Hk.
Qed.

Lemma dict_get_None (k : string) (items : dict) :
  dict_get k items = None <-> ~ In k (keys items).
Proof.
  induction items as [|[k0 v0] items IH]; simpl; [tauto|].
  destruct (String.eqb_spec k0 k) as [-> | Hne].
  - split; [discriminate | tauto].
  - rewrite IH. tauto.
Qed.

Lemma distinct_cons (k : string) (l : list string) :
  distinct (k :: l) = true -> ~ In k l /\ distinct l = true.
Proof.
  simpl. intros [Hk Hl]%andb_prop. split; [|exact Hl].
  apply negb_true_iff in Hk. intros Hin. apply str_in_In in Hin. congruence.
Qed.

Section SerializerFacts.
Context `{Runtime}.

Lemma fill_get_other (f : data -> option data) (k : string) (items out : dict) :
  ~ In k (keys items) -> dict_get k (fill f items out) = dict_get k out.
Proof.
  revert out. induction items as [|[k0 v0] items IH]; intros out Hk; simpl in *.
  - reflexivity.
  - rewrite IH by tauto. destruct (f v0); [|reflexivity].
    apply dict_get_set_ne. tauto.
Qed.

(** With distinct keys, the item of a key decides what the output holds
    under that key. *)
Lemma fill_get (f : data -> option data) (k : string) (v : data) (items out : dict) :
  distinct (keys items) = true -> In (k, v) items ->
  dict_get k (fill f items out) =
  match f v with
  | Some w => Some w
  | None => dict_get k out
  end.
Proof.
  revert out. induction items as [|[k0 v0] items IH]; intros out Hd Hin; simpl in *.
  - destruct Hin.
  - apply distinct_cons in Hd as [Hk0 Hd]. destruct Hin as [[= -> ->] | Hin].
    + rewrite fill_get_other by exact Hk0.
      destruct (f v); [apply dict_get_set_eq | reflexivity].
    + rewrite (IH _ Hd Hin). destruct (f v); [reflexivity|].
      destruct (f v0); [|reflexivity].
      apply dict_get_set_ne. intros ->. apply Hk0.
      change k with (fst (k, v)). apply in_map, Hin.
Qed.

Lemma dict_factory_loop_fill (items out : dict) :
  _dict_factory_loop items out = fill factory_item items out.
Proof.
  revert out. induction items as [|[k v] items IH]; intros out; simpl; [reflexivity|].
  rewrite IH. unfold factory_item. destruct (is_not_None v); reflexivity.
Qed.

Lemma dataclass_loop_fill (fields out : dict) :
  _dataclass_to_spec_loop fields out = fill dataclass_item fields out.
Proof.
  revert out. induction fields as [|[k v] fields IH]; intros out; simpl; [reflexivity|].
  rewrite IH. unfold dataclass_item.
  destruct (is_not_None (_object_to_spec v)); reflexivity.
Qed.

(** [_object_to_spec] case by case, in terms of the functions of the
    module. *)
Lemma object_to_spec_dataclass (fields : dict) :
  _object_to_spec (PyDataclass fields) = PyDict (_dataclass_to_spec fields).
Proof. reflexivity. Qed.

Lemma object_to_spec_dict (items : dict) :
  _object_to_spec (PyDict items) = PyDict (_dict_to_spec items).
Proof. reflexivity. Qed.

Lemma object_to_spec_list (l : list data) :
  _object_to_spec (PyList l) = PyList (map _object_to_spec l).
Proof. reflexivity. Qed.

Lemma object_to_spec_expression {t} (e : Expression t) :
  _object_to_spec (PyExpression e) = PyStr (to_cel e).
Proof. reflexivity. Qed.

Lemma object_to_spec_enum (v : data) : _object_to_spec (PyEnum v) = v.
Proof. reflexivity. Qed.

Lemma dataclass_to_spec_get (k : string) (v : data) (fields : dict) :
  distinct (keys fields) = true -> In (k, v) fields ->
  dict_get k (_dataclass_to_spec fields) = dataclass_item v.
Proof.
  intros Hd Hin. unfold _dataclass_to_spec.
  rewrite dataclass_loop_fill, (fill_get _ k v) by assumption.
  destruct (dataclass_item v); reflexivity.
Qed.

Lemma dict_to_spec_get (k : string) (v : data) (items : dict) :
  distinct (keys items) = true -> In (k, v) items ->
  dict_get k (_dict_to_spec items) = factory_item v.
Proof.
  intros Hd Hin. unfold _dict_to_spec, _dict_factory.
  rewrite dict_factory_loop_fill, (fill_get _ k v) by assumption.
  destruct (factory_item v); reflexivity.
Qed.

End SerializerFacts.

Lemma unique_keys_dataclass (fields : dict) :
  unique_keys (PyDataclass fields) =
  distinct (keys fields) && forallb (fun kv => unique_keys (snd kv)) fields.
Proof.
  simpl. f_equal.
  induction fields as [|[k v] fields IH]; simpl; [reflexivity|].
  rewrite IH. reflexivity.
Qed.

Lemma unique_keys_dict (items : dict) :
  unique_keys (PyDict items) =
  distinct (keys items) && forallb (fun kv => unique_keys (snd kv)) items.
Proof.
  simpl. f_equal.
  induction items as [|[k v] items IH]; simpl; [reflexivity|].
  rewrite IH. reflexivity.
Qed.

Lemma unique_keys_value (k : string) (v : data) (items : dict) :
  forallb (fun kv => unique_keys (snd kv)) items = true ->
  In (k, v) items -> unique_keys v = true.
Proof.
  intros Hall Hin. rewrite forallb_forall in Hall. exact (Hall (k, v) Hin).
Qed.

Section Expressions_in_tree.
Context `{Runtime}.

(** Whatever holds an expression further down is not [None], and neither
    is what it is converted to. *)
Lemma at_path_not_None {t} (d : data) (path : list step) (e : Expression t) :
  at_path d path = Some (PyExpression e) ->
  factory_item d = Some (_object_to_spec d) /\
  dataclass_item d = Some (_object_to_spec d).
Proof.
  unfold factory_item, dataclass_item.
  destruct path as [|s rest]; simpl.
  - intros [= ->]. split; reflexivity.
  - destruct s, d; try discriminate; intros _; split; reflexivity.
Qed.

(** An expression anywhere in a tree is found, at the same position of
    the converted tree, as its braced rendering. *)
Lemma object_to_spec_at_path {t} (path : list step) (tree : data) (e : Expression t) :
  unique_keys tree = true ->
  at_path tree path = Some (PyExpression e) ->
  at_path (_object_to_spec tree) (map spec_step path) = Some (PyStr (to_cel e)).
Proof.
  revert tree. induction path as [|s rest IH]; intros tree Hu Hp.
  - simpl in Hp. injection Hp as ->. reflexivity.
  - destruct s as [f | k | i]; destruct tree; try discriminate Hp.
    + rewrite unique_keys_dataclass in Hu. apply andb_prop in Hu as [Hd Hall].
      simpl in Hp. destruct (dict_get f fields) as [d'|] eqn:Hf; [|discriminate].
      apply dict_get_In in Hf.
      rewrite object_to_spec_dataclass. cbn [map spec_step at_path].
      rewrite (dataclass_to_spec_get f d' fields Hd Hf).
      rewrite (proj2 (at_path_not_None d' rest e Hp)).
      apply IH; [exact (unique_keys_value f d' fields Hall Hf) | exact Hp].
    + rewrite unique_keys_dict in Hu. apply andb_prop in Hu as [Hd Hall].
      simpl in Hp. destruct (dict_get k items) as [d'|] eqn:Hk; [|discriminate].
      apply dict_get_In in Hk.
      rewrite object_to_spec_dict. cbn [map spec_step at_path].
      rewrite (dict_to_spec_get k d' items Hd Hk).
      rewrite (proj1 (at_path_not_None d' rest e Hp)).
      apply IH; [exact (unique_keys_value k d' items Hall Hk) | exact Hp].
    + simpl in Hp. destruct (nth_error l i) as [d'|] eqn:Hi; [|discriminate].
      rewrite object_to_spec_list. cbn [map spec_step at_path].
      rewrite nth_error_map, Hi. cbn [option_map].
      apply IH; [|exact Hp].
      simpl in Hu. rewrite forallb_forall in Hu.
      apply Hu, (nth_error_In _ _ Hi).
Qed.

(** [manifest_to_spec_dict] is the conversion of the stack, but for the
    key [params]. *)
Lemma manifest_to_spec_dict_get (m : ManifestStack) (out : dict) (k : string) :
  manifest_to_spec_dict m = Ok out -> k <> "params" ->
  dict_get k out = dict_get k (_dataclass_to_spec (ManifestStack_fields m)).
Proof.
  unfold manifest_to_spec_dict. intros Hout Hk.
  destruct (params m) as [ps|].
  - destruct (map_result _param_to_spec ps) as [specs|e]; simpl in Hout;
      [|discriminate Hout].
    injection Hout as <-. apply dict_get_set_ne. congruence.
  - injection Hout as <-. reflexivity.
Qed.

(** Under [params] it holds the spec records of the declared params,
    whatever the conversion of the stack had put there. *)
Lemma manifest_to_spec_dict_params (m : ManifestStack) (out : dict) (ps : list AnyParam) :
  manifest_to_spec_dict m = Ok out -> params m = Some ps ->
  exists specs, map_result _param_to_spec ps = Ok specs /\
                dict_get "params" out = Some (PyList (map PyDict specs)).
Proof.
  unfold manifest_to_spec_dict. intros Hout Hps. rewrite Hps in Hout.
  destruct (map_result _param_to_spec ps) as [specs|e]; simpl in Hout;
    [|discriminate Hout].
  injection Hout as <-. exists specs. split; [reflexivity|].
  apply dict_get_set_eq.
Qed.

(** C3.  An [Expression] handed to the serializer, a [Param] or a
    [SecretParam] included, comes out as its braced rendering, the text
    [to_cel] returns; so does an expression at any position of a tree
    of dataclass instances, dicts and lists, at the same position of the
    output, and an expression anywhere in the endpoints of a stack, in
    what [manifest_to_spec_dict] returns.  The rendering is made of the
    expression alone: whatever
    entry the environment has for the name of a [StringParam], so
    whatever its [value()] is, the output is the text
    [{{ params.NAME }}]. *)
Theorem expression_serialized_as_cel :
  (forall (t : ty) (e : Expression t),
     _object_to_spec (PyExpression e) = PyStr (to_cel e) /\
     to_cel e = "{{ " +:+ str e +:+ " }}") /\
  (forall p : AnyParam,
     _object_to_spec (param_obj p) = PyStr ("{{ params." +:+ param_name p +:+ " }}")) /\
  (forall (t : ty) (tree : data) (path : list step) (e : Expression t),
     unique_keys tree = true ->
     at_path tree path = Some (PyExpression e) ->
     at_path (_object_to_spec tree) (map spec_step path) = Some (PyStr (to_cel e))) /\
  (forall (t : ty) (m : ManifestStack) (out : dict) (rest : list step) (e : Expression t),
     manifest_to_spec_dict m = Ok out ->
     unique_keys (stack_obj m) = true ->
     at_path (stack_obj m) (Attr "endpoints" :: rest) = Some (PyExpression e) ->
     at_path (PyDict out) (Item "endpoints" :: map spec_step rest)
     = Some (PyStr (to_cel e))) /\
  (forall (n entry : string) (env : environ),
     env !! n = Some entry ->
     let p := OfParam (param StringParam n None) in
     value p env = Ok entry /\
     _object_to_spec (PyExpression p) = PyStr ("{{ params." +:+ n +:+ " }}")).
Proof.
  split; [intros t e; split; reflexivity|].
  split; [intros [t q | s]; reflexivity|].
  split; [intros t tree path e; apply object_to_spec_at_path|].
  split.
  { intros t m out rest e Hout Hu Hp.
    pose proof (object_to_spec_at_path _ _ e Hu Hp) as Hspec.
    unfold stack_obj in Hspec. rewrite object_to_spec_dataclass in Hspec.
    cbn [map spec_step at_path] in Hspec. cbn [at_path].
    rewrite (manifest_to_spec_dict_get m out "endpoints" Hout) by discriminate.
    exact Hspec. }
  intros n entry env Hn p. split; [|reflexivity].
  subst p. rewrite value_of_param. unfold Param_value, param. cbn [cls name default].
  rewrite Hn. reflexivity.
Qed.

End Expressions_in_tree.

(** The retry flag of the example endpoint, inside its event trigger. *)
Lemma expression_serialized_as_cel_witness :
  at_path (_object_to_spec (endpoint_obj Examples.on_event))
          [Item "eventTrigger"; Item "retry"]
  = Some (PyStr "{{ params.RETRY == True }}") /\
  (exists out,
     manifest_to_spec_dict Examples.stack = Ok out /\
     at_path (PyDict out)
       [Item "endpoints"; Item "on_event"; Item "eventTrigger";
        Item "eventFilters"; Item "bucket"]
     = Some (PyStr "{{ params.STORAGE_BUCKET }}")) /\
  value (OfParam (param StringParam "STAGE" None)) {["STAGE" := "prod"]} = Ok "prod" /\
  _object_to_spec (PyExpression (OfParam (param StringParam "STAGE" None)))
  = PyStr "{{ params.STAGE }}".
Proof.
  destruct (expression_serialized_as_cel (H := Sample.runtime))
    as (_ & _ & Hpath & Hstack & Henv).
  split; [|split].
  - exact (Hpath TBool (endpoint_obj Examples.on_event)
             [Attr "eventTrigger"; Item "retry"]
             (equals Examples.RETRY true) eq_refl eq_refl).
  - destruct (manifest_to_spec_dict Examples.stack) as [out|err] eqn:Hout;
      [|vm_compute in Hout; discriminate Hout].
    exists out. split; [reflexivity|].
    exact (Hstack TStr Examples.stack out
             [Item "on_event"; Attr "eventTrigger"; Item "eventFilters"; Item "bucket"]
             (OfParam STORAGE_BUCKET) Hout eq_refl eq_refl).
  - exact (Henv "STAGE" "prod" {["STAGE" := "prod"]} eq_refl).
Defined.

Section Absent_and_sentinel.
Context `{Runtime}.

Lemma endpoint_fields_distinct (e : ManifestEndpoint) :
  distinct (keys (ManifestEndpoint_fields e)) = true.
Proof. reflexivity. Qed.

(** What is passed through on the way to a position further down is a
    dataclass instance, a dict or a list: neither loop skips it. *)
Lemma container_kept (d x : data) (path : list step) :
  path <> [] -> at_path d path = Some x ->
  factory_item d = Some (_object_to_spec d) /\
  dataclass_item d = Some (_object_to_spec d).
Proof.
  unfold factory_item, dataclass_item.
  destruct path as [|s rest]; [intros Hne; destruct (Hne eq_refl)|intros _].
  destruct s, d; try discriminate; intros _; split; reflexivity.
Qed.

(** The marker anywhere in a tree is found unchanged at the same
    position of the converted tree. *)
Lemma marker_at_path (path : list step) (tree : data) :
  unique_keys tree = true ->
  at_path tree path = Some SENTINEL ->
  at_path (_object_to_spec tree) (map spec_step path) = Some SENTINEL.
Proof.
  revert tree. induction path as [|s rest IH]; intros tree Hu Hp.
  - simpl in Hp. injection Hp as ->. reflexivity.
  - destruct s as [f | k | i]; destruct tree; try discriminate Hp.
    + rewrite unique_keys_dataclass in Hu. apply andb_prop in Hu as [Hd Hall].
      simpl in Hp. destruct (dict_get f fields) as [d'|] eqn:Hf; [|discriminate].
      apply dict_get_In in Hf.
      rewrite object_to_spec_dataclass. cbn [map spec_step at_path].
      rewrite (dataclass_to_spec_get f d' fields Hd Hf).
      destruct rest as [|s' rest'].
      * simpl in Hp. injection Hp as ->. reflexivity.
      * rewrite (proj2 (container_kept d' SENTINEL (s' :: rest') ltac:(discriminate) Hp)).
        apply IH; [exact (unique_keys_value f d' fields Hall Hf) | exact Hp].
    + rewrite unique_keys_dict in Hu. apply andb_prop in Hu as [Hd Hall].
      simpl in Hp. destruct (dict_get k items) as [d'|] eqn:Hk; [|discriminate].
      apply dict_get_In in Hk.
      rewrite object_to_spec_dict. cbn [map spec_step at_path].
      rewrite (dict_to_spec_get k d' items Hd Hk).
      destruct rest as [|s' rest'].
      * simpl in Hp. injection Hp as ->. reflexivity.
      * rewrite (proj1 (container_kept d' SENTINEL (s' :: rest') ltac:(discriminate) Hp)).
        apply IH; [exact (unique_keys_value k d' items Hall Hk) | exact Hp].
    + simpl in Hp. destruct (nth_error l i) as [d'|] eqn:Hi; [|discriminate].
      rewrite object_to_spec_list. cbn [map spec_step at_path].
      rewrite nth_error_map, Hi. cbn [option_map].
      apply IH; [|exact Hp].
      simpl in Hu. rewrite forallb_forall in Hu.
      apply Hu, (nth_error_In _ _ Hi).
Qed.

(** [None] anywhere in a tree: as a field or as the value of a key it
    leaves no key in the converted tree, as an element of a list it
    stays where it is. *)
Lemma none_at_path (path : list step) (s : step) (tree : data) :
  unique_keys tree = true ->
  at_path tree (path ++ [s])%list = Some PyNone ->
  at_path (_object_to_spec tree) (map spec_step (path ++ [s])%list) =
  match s with
  | Index _ => Some PyNone
  | _ => None
  end.
Proof.
  revert tree. induction path as [|s0 rest IH]; intros tree Hu Hp.
  - cbn [app] in Hp. cbn [app].
    destruct s as [f | k | i]; destruct tree; try discriminate Hp.
    + rewrite unique_keys_dataclass in Hu. apply andb_prop in Hu as [Hd _].
      simpl in Hp. destruct (dict_get f fields) as [d'|] eqn:Hf; [|discriminate].
      injection Hp as ->. apply dict_get_In in Hf.
      rewrite object_to_spec_dataclass. cbn [map spec_step at_path].
      rewrite (dataclass_to_spec_get f PyNone fields Hd Hf). reflexivity.
    + rewrite unique_keys_dict in Hu. apply andb_prop in Hu as [Hd _].
      simpl in Hp. destruct (dict_get k items) as [d'|] eqn:Hk; [|discriminate].
      injection Hp as ->. apply dict_get_In in Hk.
      rewrite object_to_spec_dict. cbn [map spec_step at_path].
      rewrite (dict_to_spec_get k PyNone items Hd Hk). reflexivity.
    + simpl in Hp. destruct (nth_error l i) as [d'|] eqn:Hi; [|discriminate].
      injection Hp as ->.
      rewrite object_to_spec_list. cbn [map spec_step at_path].
      rewrite nth_error_map, Hi. reflexivity.
  - assert (Hne : (rest ++ [s])%list <> []) by (destruct rest; discriminate).
    change ((s0 :: rest) ++ [s])%list with (s0 :: (rest ++ [s])%list) in *.
    destruct s0 as [f | k | i]; destruct tree; try discriminate Hp.
    + rewrite unique_keys_dataclass in Hu. apply andb_prop in Hu as [Hd Hall].
      simpl in Hp. destruct (dict_get f fields) as [d'|] eqn:Hf; [|discriminate].
      apply dict_get_In in Hf.
      rewrite object_to_spec_dataclass. cbn [map spec_step at_path].
      rewrite (dataclass_to_spec_get f d' fields Hd Hf).
      rewrite (proj2 (container_kept d' PyNone _ Hne Hp)).
      apply IH; [exact (unique_keys_value f d' fields Hall Hf) | exact Hp].
    + rewrite unique_keys_dict in Hu. apply andb_prop in Hu as [Hd Hall].
      simpl in Hp. destruct (dict_get k items) as [d'|] eqn:Hk; [|discriminate].
      apply dict_get_In in Hk.
      rewrite object_to_spec_dict. cbn [map spec_step at_path].
      rewrite (dict_to_spec_get k d' items Hd Hk).
      rewrite (proj1 (container_kept d' PyNone _ Hne Hp)).
      apply IH; [exact (unique_keys_value k d' items Hall Hk) | exact Hp].
    + simpl in Hp. destruct (nth_error l i) as [d'|] eqn:Hi; [|discriminate].
      rewrite object_to_spec_list. cbn [map spec_step at_path].
      rewrite nth_error_map, Hi. cbn [option_map].
      apply IH; [|exact Hp].
      simpl in Hu. rewrite forallb_forall in Hu.
      apply Hu, (nth_error_In _ _ Hi).
Qed.

(** C4, as the code has it.  In the conversion of a [ManifestEndpoint],
    a field whose value is [None] has no key in the output, and a field
    that holds the [Sentinel] marker keeps its key; the same holds for
    the entries of a mapping, and at every depth of a tree of dataclass
    instances, dicts and lists ([None] as an element of a list stays in
    the list).  What stands under the kept key is the marker object
    itself, which the conversion returns unchanged: it writes no
    literal token in its place, neither a text, a number, a truth value
    nor the null literal.  Under a key, the marker is neither an
    omission nor the conversion of anything else (an enum member
    declared with the marker as its value apart). *)
Theorem absent_dropped_sentinel_kept :
  (forall (e : ManifestEndpoint) (f : string) (v : data),
     In (f, v) (ManifestEndpoint_fields e) ->
     let out := _dataclass_to_spec (ManifestEndpoint_fields e) in
     _object_to_spec (endpoint_obj e) = PyDict out /\
     (v = PyNone -> ~ In f (keys out)) /\
     (v = SENTINEL -> dict_get f out = Some SENTINEL)) /\
  (forall (items : dict) (k : string) (v : data),
     distinct (keys items) = true ->
     In (k, v) items ->
     let out := _dict_to_spec items in
     _object_to_spec (PyDict items) = PyDict out /\
     (v = PyNone -> ~ In k (keys out)) /\
     (v = SENTINEL -> dict_get k out = Some SENTINEL)) /\
  (forall (tree : data) (path : list step),
     unique_keys tree = true ->
     at_path tree path = Some SENTINEL ->
     at_path (_object_to_spec tree) (map spec_step path) = Some SENTINEL) /\
  (forall (tree : data) (path : list step) (s : step),
     unique_keys tree = true ->
     at_path tree (path ++ [s])%list = Some PyNone ->
     at_path (_object_to_spec tree) (map spec_step (path ++ [s])%list) =
     match s with
     | Index _ => Some PyNone
     | _ => None
     end) /\
  (_object_to_spec SENTINEL = SENTINEL /\
   reserved_token (_object_to_spec SENTINEL) = false) /\
  (forall w : data,
     _object_to_spec w = SENTINEL -> w = SENTINEL \/ w = PyEnum SENTINEL).
Proof.
  split; [|split; [|split; [|split; [|split]]]].
  - intros e f v Hin out. subst out.
    split; [apply object_to_spec_dataclass|].
    split; intros ->.
    + apply dict_get_None.
      rewrite (dataclass_to_spec_get f PyNone _ (endpoint_fields_distinct e) Hin).
      reflexivity.
    + rewrite (dataclass_to_spec_get f SENTINEL _ (endpoint_fields_distinct e) Hin).
      reflexivity.
  - intros items k v Hd Hin out. subst out.
    split; [apply object_to_spec_dict|].
    split; intros ->.
    + apply dict_get_None. rewrite (dict_to_spec_get k PyNone items Hd Hin).
      reflexivity.
    + rewrite (dict_to_spec_get k SENTINEL items Hd Hin). reflexivity.
  - intros tree path. apply marker_at_path.
  - intros tree path s. apply none_at_path.
  - split; reflexivity.
  - intros w Hw. destruct w as [| | | | | v | | | | | []]; try discriminate Hw.
    + right. rewrite object_to_spec_enum in Hw. rewrite Hw. reflexivity.
    + left. reflexivity.
Qed.

End Absent_and_sentinel.

(** The example endpoint: no [minInstances] in the output, the marker
    under [maxInstances] and under [egressSettings] of its connector,
    there as an entry of the mapping and as a position of the whole
    tree. *)
Lemma absent_dropped_sentinel_kept_witness :
  let out := _dataclass_to_spec (ManifestEndpoint_fields Examples.on_event) in
  ~ In "minInstances" (keys out) /\
  dict_get "maxInstances" out = Some SENTINEL /\
  dict_get "egressSettings"
    (_dict_to_spec [("connector", PyStr "conn"); ("egressSettings", SENTINEL)])
  = Some SENTINEL /\
  at_path (_object_to_spec (endpoint_obj Examples.on_event))
          [Item "vpc"; Item "egressSettings"]
  = Some SENTINEL /\
  at_path (_object_to_spec (endpoint_obj Examples.on_event)) [Item "minInstances"]
  = None.
Proof.
  destruct (absent_dropped_sentinel_kept (H := Sample.runtime))
    as (Hfield & Hitem & Hdeep & Hnone & _).
  intros out. split; [|split; [|split; [|split]]].
  - refine (proj1 (proj2 (Hfield Examples.on_event "minInstances" PyNone _)) eq_refl).
    simpl. tauto.
  - refine (proj2 (proj2 (Hfield Examples.on_event "maxInstances" SENTINEL _)) eq_refl).
    simpl. tauto.
  - refine (proj2 (proj2 (Hitem [("connector", PyStr "conn"); ("egressSettings", SENTINEL)]
                            "egressSettings" SENTINEL eq_refl _)) eq_refl).
    simpl. tauto.
  - exact (Hdeep (endpoint_obj Examples.on_event)
             [Attr "vpc"; Item "egressSettings"] eq_refl eq_refl).
  - exact (Hnone (endpoint_obj Examples.on_event) [] (Attr "minInstances")
             eq_refl eq_refl).
Defined.

(** C4, as stated, fails on the example endpoint: its [maxInstances]
    and the [egressSettings] of its connector hold the marker, and what
    the conversion leaves under these keys is no literal token of any
    kind but the marker object itself. *)
Lemma sentinel_kept_as_object_not_token :
  let out := _dataclass_to_spec (ManifestEndpoint_fields Examples.on_event) in
  maxInstances Examples.on_event = SENTINEL /\
  dict_get "maxInstances" out = Some SENTINEL /\
  ~ (exists d : data,
       reserved_token d = true /\ dict_get "maxInstances" out = Some d) /\
  at_path (PyDict out) [Item "vpc"; Item "egressSettings"] = Some SENTINEL /\
  ~ (exists d : data,
       reserved_token d = true /\
       at_path (PyDict out) [Item "vpc"; Item "egressSettings"] = Some d).
Proof.
  cbv zeta. split; [reflexivity|]. split; [reflexivity|].
  split; [|split; [reflexivity|]].
  - intros (d & Hd & Hout).
    assert (Hm : dict_get "maxInstances"
                   (_dataclass_to_spec (ManifestEndpoint_fields Examples.on_event))
                 = Some SENTINEL) by reflexivity.
    rewrite Hm in Hout. injection Hout as <-. discriminate Hd.
  - intros (d & Hd & Hout).
    assert (Hm : at_path
                   (PyDict (_dataclass_to_spec (ManifestEndpoint_fields Examples.on_event)))
                   [Item "vpc"; Item "egressSettings"]
                 = Some SENTINEL) by reflexivity.
    rewrite Hm in Hout. injection Hout as <-. discriminate Hd.
Qed.

Lemma map_result_Ok {A B} (f : A -> result B) (l : list A) (bs : list B) :
  map_result f l = Ok bs -> Forall2 (fun a b => f a = Ok b) l bs.
Proof.
  revert bs. induction l as [|a l IH]; intros bs; simpl.
  - intros [= <-]. constructor.
  - destruct (f a) as [b|e] eqn:Ha; simpl; [|discriminate].
    destruct (map_result f l) as [bs'|e]; simpl; [|discriminate].
    intros [= <-]. constructor; [exact Ha | apply IH; reflexivity].
Qed.

Section ParamSpec.
Context `{Runtime}.

(** C5, as amended.  For a param of one of the six variants,
    [_param_to_spec] returns a record that has the key [name], then each
    of the keys [label], [description], [immutable] and [default] exactly
    when the param carries a value for it (the default of a [ListParam]
    as its items joined by commas, so that the default [a], [b] becomes
    [a,b]), then the key [type] with the tag of the variant: boolean,
    int, float, secret, list or string.  A [SecretParam] has no default.
    For a param of the base class it raises
    [UnsupportedParamTypeError].  These records, in the order of the
    declared params, are what [manifest_to_spec_dict] returns under
    [params]. *)
Theorem param_spec_record :
  (forall p : AnyParam,
     _param_to_spec p =
     match type_tag p with
     | Some tag =>
         Ok (("name", PyStr (param_name p))
             :: not_required "label" (PyStr <$> label_of p)
             ++ not_required "description" (PyStr <$> description_of p)
             ++ not_required "immutable" (PyBool <$> immutable_of p)
             ++ not_required "default" (default_entry p)
             ++ [("type", PyStr tag)])
     | None => Raise UnsupportedParamTypeError
     end) /\
  (forall (t : ty) (q : Param t),
     default_entry (AParam q) = None <-> default q = None) /\
  (forall s : SecretParam, default_entry (ASecret s) = None) /\
  (forall n : string,
     _param_to_spec (AParam (param ListParam n (Some ["a"; "b"])))
     = Ok [("name", PyStr n); ("default", PyStr "a,b"); ("type", PyStr "list")]) /\
  (forall (m : ManifestStack) (ps : list AnyParam) (out : dict),
     params m = Some ps ->
     manifest_to_spec_dict m = Ok out ->
     exists specs : list dict,
       Forall2 (fun p spec => _param_to_spec p = Ok spec) ps specs /\
       dict_get "params" out = Some (PyList (map PyDict specs))).
Proof.
  split; [|split; [|split; [|split]]].
  - intros [t [c n d l ds im inp] | [n l ds im]].
    + destruct c, d, l, ds, im; reflexivity.
    + destruct l, ds, im; reflexivity.
  - intros t [c n d l ds im inp]. simpl.
    destruct c, d; simpl; split; intros; congruence.
  - reflexivity.
  - reflexivity.
  - intros m ps out Hps Hout.
    destruct (manifest_to_spec_dict_params m out ps Hout Hps) as (specs & Hspecs & Hget).
    exists specs. split; [apply map_result_Ok, Hspecs | exact Hget].
Qed.

End ParamSpec.

(** The params of the example stack, in what [manifest_to_spec_dict]
    returns for it. *)
Lemma param_spec_record_witness :
  exists out specs,
    manifest_to_spec_dict Examples.stack = Ok out /\
    Forall2 (fun p spec => _param_to_spec p = Ok spec)
      [AParam Examples.RETRY; AParam Examples.MEMORY; AParam Examples.REGIONS;
       ASecret Examples.API_KEY] specs /\
    dict_get "params" out = Some (PyList (map PyDict specs)).
Proof.
  destruct (manifest_to_spec_dict Examples.stack) as [out|err] eqn:Hout;
    [|vm_compute in Hout; discriminate Hout].
  destruct (proj2 (proj2 (proj2 (proj2 (param_spec_record (H := Sample.runtime)))))
              Examples.stack _ out eq_refl Hout) as (specs & Hspecs & Hget).
  exists out, specs. split; [reflexivity | split; assumption].
Defined.

(** C5, as stated, fails for a param declared with a name only: the
    record has the keys [name] and [type] and none of [label],
    [description] and [immutable].  It also fails for a param of the
    base class, which registers itself like any other and for which
    no record is produced. *)
Lemma param_spec_without_label :
  _param_to_spec (AParam (param StringParam "X" None))
  = Ok [("name", PyStr "X"); ("type", PyStr "string")] /\
  (forall spec, _param_to_spec (AParam (param StringParam "X" None)) = Ok spec ->
     ~ In "label" (keys spec) /\ ~ In "description" (keys spec) /\
     ~ In "immutable" (keys spec)) /\
  (let base := AParam (param (BaseParam TStr) "Y" None) in
   construct base ∅ = (Ok tt, {["Y" := base]}) /\
   _param_to_spec base = Raise UnsupportedParamTypeError).
Proof.
  split; [reflexivity|]. split.
  - intros spec [= <-]. simpl. intuition discriminate.
  - split; reflexivity.
Qed.

(** * Further properties *)

(** ** Names and the registry *)

Lemma name_tail_iff (rest : string) :
  name_tail rest = true <->
  exists body, name_chars body = true /\ (rest = body \/ rest = body +:+ newline).
Proof.
  split.
  - induction rest as [|c r IH]; simpl.
    + intros _. exists EmptyString. split; [reflexivity | left; reflexivity].
    + destruct (name_char c) eqn:Hc.
      * intros Hr. destruct (IH Hr) as (body & Hb & [-> | ->]);
          exists (String c body); simpl; rewrite Hc, Hb; split; auto.
      * intros [Hnl Hr]%andb_prop. apply Ascii.eqb_eq in Hnl.
        apply String.eqb_eq in Hr. subst c r.
        exists EmptyString. split; [reflexivity | right; reflexivity].
  - intros (body & Hb & Hrest). revert rest Hrest.
    induction body as [|c body IH]; intros rest [-> | ->]; simpl in *;
      try reflexivity.
    + apply andb_prop in Hb as [Hc Hb]. rewrite Hc. apply (IH Hb). left. reflexivity.
    + apply andb_prop in Hb as [Hc Hb]. rewrite Hc. apply (IH Hb). right. reflexivity.
Qed.

(** X1.  The name test of the two [__post_init__], [re.match] of
    [^[A-Z0-9_]+$], accepts exactly the strings made of one or more of
    the characters A to Z, 0 to 9 and underscore, and those strings
    followed by one line feed; the empty name is rejected. *)
Theorem name_matches_iff (s : string) :
  name_matches s = true <->
  exists body, body <> EmptyString /\ name_chars body = true /\
               (s = body \/ s = body +:+ newline).
Proof.
  split.
  - destruct s as [|c rest]; simpl; [discriminate|].
    intros [Hc Hrest]%andb_prop.
    apply name_tail_iff in Hrest as (body & Hb & Hrest).
    exists (String c body). simpl. rewrite Hc, Hb.
    split; [discriminate|]. split; [reflexivity|].
    destruct Hrest as [-> | ->]; auto.
  - intros (body & Hne & Hb & Hs). destruct body as [|c body]; [contradiction|].
    simpl in Hb. apply andb_prop in Hb as [Hc Hb].
    assert (Htail : forall rest, rest = body \/ rest = body +:+ newline ->
                                 name_tail rest = true).
    { intros rest Hrest. apply name_tail_iff. exists body. auto. }
    destruct Hs as [-> | ->]; simpl; rewrite Hc; apply Htail; auto.
Qed.

(** X2.  A constructor that raises leaves the registry as it found it,
    and what it raises is [InvalidNameError] when the name fails the
    test, even if that name is registered, and [DuplicateParamError]
    when the name passes and is registered; a default param raises
    nothing.  A constructor of another class that returns has put its
    object under its name, which was free, and has touched no other
    name. *)
Theorem construct_outcome (p : AnyParam) (reg : registry) :
  (forall e, fst (construct p reg) = Raise e ->
     snd (construct p reg) = reg /\ is_default p = false /\
     ((name_matches (param_name p) = false /\ e = InvalidNameError) \/
      (name_matches (param_name p) = true /\ is_Some (reg !! param_name p) /\
       e = DuplicateParamError (param_name p)))) /\
  (name_matches (param_name p) = false -> is_default p = false ->
     construct p reg = (Raise InvalidNameError, reg)) /\
  (fst (construct p reg) = Ok tt -> is_default p = false ->
     reg !! param_name p = None /\
     snd (construct p reg) !! param_name p = Some p /\
     forall k, k <> param_name p -> snd (construct p reg) !! k = reg !! k).
Proof.
  destruct (is_default p) eqn:Hd.
  { rewrite construct_default by exact Hd.
    split; [intros e He; discriminate He|]. split; intros; discriminate. }
  destruct (name_matches (param_name p)) eqn:Hn.
  { destruct (reg !! param_name p) as [q|] eqn:Hq.
    - rewrite (construct_duplicate p q) by assumption. simpl.
      split; [|split; intros; discriminate].
      intros e [= <-]. split; [reflexivity|]. split; [reflexivity|].
      right. split; [reflexivity|]. split; [exists q|]; reflexivity.
    - rewrite construct_fresh by assumption. simpl.
      split; [intros e He; discriminate He|]. split; [intros; discriminate|].
      intros _ _. split; [reflexivity|]. split; [apply lookup_insert_eq|].
      intros k Hk. apply lookup_insert_ne. congruence. }
  rewrite construct_invalid by assumption. simpl.
  split; [|split; [reflexivity | intros; discriminate]].
  intros e [= <-]. split; [reflexivity|]. split; [reflexivity|].
  left. split; reflexivity.
Qed.

(** A second secret under a taken name, and a first one under a free
    name. *)
Lemma construct_outcome_witness :
  let first := ASecret (secret "KEY") in
  let reg : registry := {["KEY" := first]} in
  snd (construct (AParam (param IntParam "KEY" None)) reg) = reg /\
  construct (ASecret (secret "bad-name")) reg = (Raise InvalidNameError, reg) /\
  snd (construct (ASecret (secret "OTHER")) reg) !! "OTHER" = Some (ASecret (secret "OTHER")).
Proof.
  intros first reg. split; [|split].
  - exact (proj1 (proj1 (construct_outcome (AParam (param IntParam "KEY" None)) reg)
                    (DuplicateParamError "KEY") eq_refl)).
  - exact (proj1 (proj2 (construct_outcome (ASecret (secret "bad-name")) reg))
             eq_refl eq_refl).
  - exact (proj1 (proj2 (proj2 (proj2 (construct_outcome (ASecret (secret "OTHER")) reg))
                           eq_refl eq_refl))).
Defined.

Lemma registers_true (k : string) (p : AnyParam) :
  registers k p = true <->
  is_default p = false /\ name_matches (param_name p) = true /\ param_name p = k.
Proof.
  unfold registers. rewrite !andb_true_iff, negb_true_iff, String.eqb_eq. tauto.
Qed.

(** X3.  After a run, a name that was registered before still has its
    param, and any other name has the first param of the run that is
    not a default param, has a valid name and was constructed under
    that name; it has none when the run has no such param. *)
Theorem run_first_wins (ps : list AnyParam) (reg : registry) (k : string) :
  run ps reg !! k =
  match reg !! k with
  | Some q => Some q
  | None => List.find (registers k) ps
  end.
Proof.
  revert reg. induction ps as [|p ps IH]; intros reg.
  { simpl. unfold run. simpl. destruct (reg !! k); reflexivity. }
  rewrite run_cons, IH. simpl.
  destruct (registers k p) eqn:Hr.
  - apply registers_true in Hr as (Hd & Hn & <-).
    destruct (reg !! param_name p) as [q|] eqn:Hq.
    + rewrite (construct_duplicate p q) by assumption. simpl. rewrite Hq. reflexivity.
    + rewrite construct_fresh by assumption. simpl.
      rewrite lookup_insert_eq. reflexivity.
  - destruct (construct_cases p reg) as [-> | (Hd & Hn & _ & ->)]; [reflexivity|].
    simpl. rewrite lookup_insert_ne; [reflexivity|].
    intros E. assert (registers k p = true) by (apply registers_true; auto).
    congruence.
Qed.

(** ** Evaluation *)

Section Evaluation_facts.
Context `{Runtime}.

Lemma Param_value_entry {t} (p : Param t) (env1 env2 : environ) :
  env1 !! name p = env2 !! name p -> Param_value p env1 = Param_value p env2.
Proof.
  destruct p as [c n d l ds im inp]. unfold Param_value. cbn [cls name default].
  intros ->. reflexivity.
Qed.

(** X4.  [value()] reads the environment only under the names of the
    params and secrets the expression is built on: two environments
    that agree on those names give the same value or the same
    exception. *)
Theorem value_reads_own_names {t} (e : Expression t) (env1 env2 : environ) :
  (forall n, In n (names e) -> env1 !! n = env2 !! n) ->
  value e env1 = value e env2.
Proof.
  induction e as [t | t test IH a b | t op lhs IH rhs | t p | s]; intros Hagree.
  - reflexivity.
  - rewrite !value_ternary, (IH Hagree). reflexivity.
  - rewrite !value_compare, (IH Hagree). reflexivity.
  - rewrite !value_of_param. apply Param_value_entry, Hagree. left. reflexivity.
  - simpl. unfold SecretParam_value. rewrite (Hagree (secret_name s)); [reflexivity|].
    left. reflexivity.
Qed.

Lemma known_comparator_value {t} (op : string) (l rhs : denote t) :
  known_comparator op = true ->
  exists b : bool,
    (if String.eqb op "==" then Ok (py_eq l rhs)
     else if String.eqb op ">" then Ok (py_gt l rhs)
     else if String.eqb op ">=" then Ok (py_ge l rhs)
     else if String.eqb op "<" then Ok (py_lt l rhs)
     else if String.eqb op "<=" then Ok (py_le l rhs)
     else Raise (InvalidComparatorError op)) = Ok b.
Proof.
  intros Hop. apply str_in_In in Hop. simpl in Hop.
  repeat (destruct Hop as [<- | Hop]; [eexists; reflexivity|]). destruct Hop.
Qed.

(** X5.  An expression built on [StringParam], [ListParam],
    [_DefaultStringParam] and [SecretParam] objects only, with
    comparators among the five known ones, has a value in every
    environment: [value()] raises nothing. *)
Theorem text_only_value {t} (e : Expression t) (env : environ) :
  text_only e = true -> exists v, value e env = Ok v.
Proof.
  induction e as [t | t test IH a b | t op lhs IH rhs | t p | s]; simpl.
  - discriminate.
  - intros Ht. destruct (IH Ht) as [c ->]. simpl. eexists. reflexivity.
  - intros [Hop Ht]%andb_prop. destruct (IH Ht) as [l ->]. simpl.
    apply known_comparator_value, Hop.
  - destruct p as [c n d l ds im inp]. unfold Param_value. cbn [cls name default].
    destruct c; try discriminate; intros _;
      destruct (env !! n); try destruct d; eexists; reflexivity.
  - intros _. unfold SecretParam_value.
    destruct (env !! secret_name s); eexists; reflexivity.
Qed.

(** X6.  Exceptions come from below and from nowhere else: a
    [TernaryExpression] raises exactly when its test raises, and then
    the same exception; a [CompareExpression] raises exactly when its
    left side raises, with the same exception, or when its left side
    returns and the comparator is none of the five known ones, with
    [InvalidComparatorError]. *)
Theorem raises_iff (env : environ) :
  (forall (t : ty) (test : Expression TBool) (a b : denote t) (e : exn),
     value (TernaryExpression test a b) env = Raise e <-> value test env = Raise e) /\
  (forall (t : ty) (op : string) (lhs : Expression t) (rhs : denote t) (e : exn),
     value (CompareExpression op lhs rhs) env = Raise e <->
     value lhs env = Raise e \/
     ((exists l, value lhs env = Ok l) /\ known_comparator op = false /\
      e = InvalidComparatorError op)).
Proof.
  split.
  - intros t test a b e. rewrite value_ternary.
    destruct (value test env) as [c|e']; simpl; split; congruence.
  - intros t op lhs rhs e. rewrite value_compare.
    destruct (value lhs env) as [l|e']; simpl.
    + destruct (known_comparator op) eqn:Hop.
      * destruct (known_comparator_value op l rhs Hop) as [b ->].
        split; [discriminate|]. intros [He | (_ & Hf & _)]; discriminate.
      * assert (Hne : forall s, In s ["=="; ">"; ">="; "<"; "<="] ->
                                String.eqb op s = false).
        { intros s Hs. destruct (String.eqb_spec op s) as [-> | _]; [|reflexivity].
          apply str_in_In in Hs. unfold known_comparator in Hop. congruence. }
        rewrite !Hne by (simpl; tauto).
        split.
        -- intros [= <-]. right. split; [exists l; reflexivity|]. split; reflexivity.
        -- intros [He | (_ & _ & ->)]; [discriminate He | reflexivity].
    + split; [intros [= ->]; left; reflexivity|].
      intros [[= ->] | ((l & Hl) & _)]; [reflexivity | discriminate Hl].
Qed.

Lemma string_compare_refl (x : string) : String.compare x x = Eq.
Proof.
  pose proof (String.compare_antisym x x) as Ha.
  destruct (String.compare x x); [reflexivity | discriminate Ha | discriminate Ha].
Qed.

Lemma list_compare_eq (a b : list string) : list_compare a b = Eq <-> a = b.
Proof.
  revert b. induction a as [|x a IH]; intros [|y b]; simpl;
    try (split; [discriminate | discriminate]); try tauto.
  destruct (String.compare x y) eqn:Hxy.
  - apply String.compare_eq_iff in Hxy. subst y. rewrite IH.
    split; [intros ->; reflexivity | intros [= ->]; reflexivity].
  - split; [discriminate|]. intros E. injection E as E _.
    rewrite E, string_compare_refl in Hxy. discriminate Hxy.
  - split; [discriminate|]. intros E. injection E as E _.
    rewrite E, string_compare_refl in Hxy. discriminate Hxy.
Qed.

(** On the types other than [float], [==] is equality. *)
Lemma py_eq_iff {t} (a b : denote t) : exact t = true -> (py_eq a b = true <-> a = b).
Proof.
  destruct t; simpl; try discriminate; intros _.
  - apply String.eqb_eq.
  - apply Z.eqb_eq.
  - destruct a, b; simpl; split; congruence.
  - unfold is_Eq. destruct (list_compare a b) eqn:Hc.
    + apply list_compare_eq in Hc. tauto.
    + split; [discriminate|]. intros E. apply list_compare_eq in E. congruence.
    + split; [discriminate|]. intros E. apply list_compare_eq in E. congruence.
Qed.

(** X7.  [equals] tests equality with the resolved value: for a param
    of a type other than [float] whose [value()] is [v], and for a
    secret whose [value()] is [v], the [value()] of [equals(right)] is
    true when [v] is [right] and false otherwise. *)
Theorem equals_value :
  (forall (t : ty) (p : Param t) (right v : denote t) (env : environ),
     exact t = true ->
     value (OfParam p) env = Ok v ->
     exists b, value (equals p right) env = Ok b /\ (b = true <-> v = right)) /\
  (forall (s : SecretParam) (right : string) (env : environ),
     exists v b, value (OfSecretParam s) env = Ok v /\
                 value (secret_equals s right) env = Ok b /\
                 (b = true <-> v = right)).
Proof.
  split.
  - intros t p right v env Ht Hv. exists (py_eq v right).
    unfold equals, compare. rewrite value_compare, Hv. simpl.
    split; [reflexivity | apply py_eq_iff, Ht].
  - intros s right env.
    assert (Hv : exists v, value (OfSecretParam s) env = Ok v).
    { simpl. unfold SecretParam_value.
      destruct (env !! secret_name s); eexists; reflexivity. }
    destruct Hv as [v Hv]. exists v, (py_eq (t := TStr) v right).
    unfold secret_equals, secret_compare. rewrite value_compare, Hv. simpl.
    split; [reflexivity|]. split; [reflexivity|]. apply String.eqb_eq.
Qed.

End Evaluation_facts.

(** Two environments that differ under a name the expression does not
    mention. *)
Lemma value_reads_own_names_witness :
  let e := compare (param IntParam "N" None) "<" 3%Z in
  value e ({["N" := "1"]} ∪ {["OTHER" := "x"]}) = value e {["N" := "1"]}.
Proof.
  intros e.
  apply (value_reads_own_names e ({["N" := "1"]} ∪ {["OTHER" := "x"]}) {["N" := "1"]}).
  intros n [<- | []]. reflexivity.
Defined.

(** A conditional on a secret, in the empty environment. *)
Lemma text_only_value_witness :
  exists v, value (then_ (t := TInt) (secret_equals (secret "KEY") "k") 1%Z 0%Z) ∅ = Ok v.
Proof.
  exact (text_only_value (then_ (t := TInt) (secret_equals (secret "KEY") "k") 1%Z 0%Z)
           ∅ eq_refl).
Defined.

(** A [StringParam] whose entry is the text it is compared with. *)
Lemma equals_value_witness :
  exists b, value (equals (param StringParam "STAGE" None) "prod") {["STAGE" := "prod"]} = Ok b /\
            (b = true <-> "prod" = "prod").
Proof.
  exact (proj1 equals_value TStr (param StringParam "STAGE" None) "prod" "prod"
           {["STAGE" := "prod"]} eq_refl eq_refl).
Defined.

(** ** Lists from the environment *)

Lemma split_not_nil (sep : ascii) (s : string) : split sep s <> [].
Proof.
  destruct s as [|c rest]; simpl; [discriminate|].
  destruct (Ascii.eqb c sep); [discriminate|].
  destruct (split sep rest); discriminate.
Qed.

Lemma split_pieces_free (sep : ascii) (s : string) :
  Forall (fun piece => has_char sep piece = false) (split sep s).
Proof.
  induction s as [|c rest IH]; simpl.
  - repeat constructor.
  - destruct (Ascii.eqb c sep) eqn:Hc.
    + constructor; [reflexivity | exact IH].
    + destruct (split sep rest) as [|piece pieces].
      * repeat constructor. simpl. rewrite Hc. reflexivity.
      * apply Forall_cons_iff in IH as [Hp Hps].
        constructor; [|exact Hps]. simpl. rewrite Hc, Hp. reflexivity.
Qed.

(** A text without the separator is one piece; a text without the
    separator, the separator and more text is that piece and the
    pieces of the rest. *)
Lemma split_free (sep : ascii) (a : string) :
  has_char sep a = false -> split sep a = [a].
Proof.
  induction a as [|c a IH]; simpl; [reflexivity|].
  intros [Hc Ha]%orb_false_elim. rewrite Hc, (IH Ha). reflexivity.
Qed.

Lemma split_app (sep : ascii) (a b : string) :
  has_char sep a = false ->
  split sep (a +:+ String sep b) = a :: split sep b.
Proof.
  induction a as [|c a IH]; simpl.
  - intros _. rewrite Ascii.eqb_refl. reflexivity.
  - intros [Hc Ha]%orb_false_elim. rewrite Hc, (IH Ha). reflexivity.
Qed.

Lemma split_join (sep : ascii) (l : list string) :
  l <> [] ->
  Forall (fun item => has_char sep item = false) l ->
  split sep (join (String sep EmptyString) l) = l.
Proof.
  intros Hne Hl. induction Hl as [|x l Hx Hl IH]; [contradiction|].
  destruct l as [|y l].
  - simpl. apply split_free, Hx.
  - change (join (String sep EmptyString) (x :: y :: l))
      with (x +:+ String sep (join (String sep EmptyString) (y :: l))).
    rewrite (split_app sep x _ Hx), IH by discriminate. reflexivity.
Qed.

Lemma filter_nonempty_all (l : list string) :
  Forall (fun item => nonempty item = true) l -> List.filter nonempty l = l.
Proof.
  induction 1 as [|x l Hx Hl IH]; simpl; [reflexivity|].
  rewrite Hx, IH. reflexivity.
Qed.

Lemma split_only_separators (sep : ascii) (s : string) :
  List.filter nonempty (split sep s) = [] <->
  forall c, has_char c s = true -> c = sep.
Proof.
  induction s as [|c s IH]; simpl.
  - split; [intros _ c'; discriminate | reflexivity].
  - destruct (Ascii.eqb_spec c sep) as [-> | Hc].
    + simpl. rewrite IH. split.
      * intros Hall c' [Hc' | Hc']%orb_prop; [|auto].
        apply Ascii.eqb_eq in Hc'. congruence.
      * intros Hall c' Hc'. apply Hall. rewrite Hc'. apply orb_true_r.
    + pose proof (split_not_nil sep s) as Hnil.
      destruct (split sep s) as [|piece pieces]; [contradiction|].
      simpl. split; [discriminate|].
      intros Hall. exfalso. apply Hc, Hall. rewrite Ascii.eqb_refl. reflexivity.
Qed.

Section ListParam_facts.
Context `{Runtime}.

(** X8.  Whatever the entry, the [value()] of a [ListParam] read from
    the environment is a list of pieces none of which is empty and none
    of which contains a comma; it is the empty list when the entry is
    empty or made of commas only. *)
Theorem list_param_pieces (p : Param TList) (env : environ) (entry : string) :
  cls p = ListParam ->
  env !! name p = Some entry ->
  exists pieces,
    value (OfParam p) env = Ok pieces /\
    Forall (fun piece => nonempty piece = true /\ has_char ","%char piece = false) pieces /\
    (pieces = [] <-> forall c, has_char c entry = true -> c = ","%char).
Proof.
  destruct p as [c n d l ds im inp]. cbn [cls name]. intros -> Hentry.
  rewrite value_of_param. unfold Param_value. cbn [cls name default]. rewrite Hentry.
  eexists. split; [reflexivity|]. split.
  - apply List.Forall_forall. intros piece [Hin Hne]%filter_In. split; [exact Hne|].
    pose proof (split_pieces_free ","%char entry) as Hfree.
    rewrite List.Forall_forall in Hfree. apply Hfree, Hin.
  - apply split_only_separators.
Qed.

(** X9.  What [_param_to_spec] writes as the default of a [ListParam]
    reads back: if no item of the default is empty or contains a comma,
    the record has the key [default] with a text which, taken as the
    environment entry of the param, makes [value()] return the default
    list. *)
Theorem list_default_round_trip (p : Param TList) (items : list string) (env : environ) :
  cls p = ListParam ->
  default p = Some items ->
  Forall (fun item => nonempty item = true /\ has_char ","%char item = false) items ->
  exists spec text,
    _param_to_spec (AParam p) = Ok spec /\
    dict_get "default" spec = Some (PyStr text) /\
    value (OfParam p) (<[name p := text]> env) = Ok items.
Proof.
  destruct p as [c n d l ds im inp]. cbn [cls name default]. intros -> -> Hitems.
  exists (("name", PyStr n)
            :: not_required "label" (PyStr <$> l)
            ++ not_required "description" (PyStr <$> ds)
            ++ not_required "immutable" (PyBool <$> im)
            ++ [("default", PyStr (join "," items)); ("type", PyStr "list")]).
  exists (join "," items). split; [|split].
  - destruct l, ds, im; reflexivity.
  - destruct l, ds, im; reflexivity.
  - rewrite value_of_param. unfold Param_value. cbn [cls name default].
    rewrite lookup_insert_eq. f_equal.
    destruct items as [|x items]; [reflexivity|].
    change "," with (String ","%char EmptyString).
    rewrite split_join.
    + apply filter_nonempty_all. eapply List.Forall_impl; [|exact Hitems].
      intros item [Hne _]. exact Hne.
    + discriminate.
    + eapply List.Forall_impl; [|exact Hitems]. intros item [_ Hfree]. exact Hfree.
Qed.

End ListParam_facts.

(** The entry [,x,,y,]. *)
Lemma list_param_pieces_witness :
  exists pieces,
    value (OfParam (param ListParam "L" None)) {["L" := ",x,,y,"]} = Ok pieces /\
    Forall (fun piece => nonempty piece = true /\ has_char ","%char piece = false) pieces.
Proof.
  assert (He : ({["L" := ",x,,y,"]} : environ) !! "L" = Some ",x,,y,") by reflexivity.
  destruct (list_param_pieces (param ListParam "L" None) {["L" := ",x,,y,"]} ",x,,y,"
              eq_refl He) as (pieces & Hv & Hp & _).
  exists pieces. split; assumption.
Defined.

(** The default [a], [b] of the example param [REGIONS]. *)
Lemma list_default_round_trip_witness :
  exists spec text,
    _param_to_spec (AParam Examples.REGIONS) = Ok spec /\
    dict_get "default" spec = Some (PyStr text) /\
    value (OfParam Examples.REGIONS) (<["REGIONS" := text]> ∅) = Ok ["a"; "b"].
Proof.
  apply (list_default_round_trip Examples.REGIONS ["a"; "b"] ∅ eq_refl eq_refl).
  repeat constructor.
Defined.

(** ** The conversion, entry by entry *)

(** Induction on a tree, with the hypothesis for every value of a
    dataclass instance, of a list and of a dict. *)
Lemma data_induction (P : data -> Prop) :
  P PyNone ->
  (forall b, P (PyBool b)) ->
  (forall n, P (PyInt n)) ->
  (forall f, P (PyFloat f)) ->
  (forall s, P (PyStr s)) ->
  (forall v, P v -> P (PyEnum v)) ->
  (forall t (e : Expression t), P (PyExpression e)) ->
  (forall fields, List.Forall (fun kv => P (snd kv)) fields -> P (PyDataclass fields)) ->
  (forall l, List.Forall P l -> P (PyList l)) ->
  (forall items, List.Forall (fun kv => P (snd kv)) items -> P (PyDict items)) ->
  (forall m, P (PySentinel m)) ->
  forall d, P d.
Proof.
  intros HNone HBool HInt HFloat HStr HEnum HExpr HData HList HDict HSent.
  fix IH 1. intros d.
  destruct d as [| b | n | f | s | v | t e | fields | l | items | m].
  - exact HNone.
  - apply HBool.
  - apply HInt.
  - apply HFloat.
  - apply HStr.
  - apply HEnum, IH.
  - apply HExpr.
  - apply HData. induction fields as [|[k v] fields IHf]; constructor;
      [apply IH | exact IHf].
  - apply HList. induction l as [|v l IHl]; constructor; [apply IH | exact IHl].
  - apply HDict. induction items as [|[k v] items IHi]; constructor;
      [apply IH | exact IHi].
  - apply HSent.
Qed.

Lemma dict_set_fresh (k : string) (w : data) (out : dict) :
  ~ In k (keys out) -> dict_set k w out = (out ++ [(k, w)])%list.
Proof.
  induction out as [|[k0 v0] out IH]; simpl; [reflexivity|].
  intros Hk. destruct (String.eqb_spec k0 k) as [-> | _]; [tauto|].
  rewrite IH by tauto. reflexivity.
Qed.

Lemma dict_set_keys (k : string) (w : data) (out : dict) :
  In k (keys out) -> keys (dict_set k w out) = keys out.
Proof.
  induction out as [|[k0 v0] out IH]; simpl; [tauto|].
  intros Hk. destruct (String.eqb_spec k0 k) as [-> | Hne]; [reflexivity|].
  simpl. rewrite IH by tauto. reflexivity.
Qed.

Lemma dict_set_values (Q : data -> Prop) (k : string) (w : data) (out : dict) :
  List.Forall (fun kv => Q (snd kv)) out -> Q w ->
  List.Forall (fun kv => Q (snd kv)) (dict_set k w out).
Proof.
  intros Hout Hw. induction Hout as [|[k0 v0] out Hv Hout IH]; simpl.
  - repeat constructor. exact Hw.
  - destruct (String.eqb k0 k); constructor; assumption.
Qed.

Lemma distinct_snoc (k : string) (l : list string) :
  distinct l = true -> ~ In k l -> distinct (l ++ [k])%list = true.
Proof.
  induction l as [|a l IH]; simpl; [reflexivity|].
  intros [Ha Hl]%andb_prop Hk. rewrite IH by tauto. rewrite andb_true_r.
  apply negb_true_iff in Ha. apply negb_true_iff.
  destruct (str_in a (l ++ [k])%list) eqn:Hin; [|reflexivity].
  apply str_in_In, in_app_or in Hin as [Hin | [<- | []]].
  - apply str_in_In in Hin. congruence.
  - tauto.
Qed.

Lemma dict_set_distinct (k : string) (w : data) (out : dict) :
  distinct (keys out) = true -> distinct (keys (dict_set k w out)) = true.
Proof.
  intros Hd. destruct (in_dec string_dec k (keys out)) as [Hin | Hout].
  - rewrite dict_set_keys by exact Hin. exact Hd.
  - rewrite dict_set_fresh by exact Hout. unfold keys. rewrite map_app.
    apply distinct_snoc; assumption.
Qed.

Lemma fill_distinct (f : data -> option data) (items out : dict) :
  distinct (keys out) = true -> distinct (keys (fill f items out)) = true.
Proof.
  revert out. induction items as [|[k v] items IH]; intros out Hd; simpl; [exact Hd|].
  apply IH. destruct (f v); [apply dict_set_distinct|]; exact Hd.
Qed.

Lemma fill_values (Q : data -> Prop) (f : data -> option data) (items out : dict) :
  List.Forall (fun kv => Q (snd kv)) out ->
  (forall k v w, In (k, v) items -> f v = Some w -> Q w) ->
  List.Forall (fun kv => Q (snd kv)) (fill f items out).
Proof.
  revert out. induction items as [|[k v] items IH]; intros out Hout Hf; simpl;
    [exact Hout|].
  apply IH.
  - destruct (f v) as [w|] eqn:Hv; [|exact Hout].
    apply dict_set_values; [exact Hout|]. apply (Hf k v w); [left; reflexivity | exact Hv].
  - intros k' v' w' Hin. apply (Hf k' v' w'). right. exact Hin.
Qed.

(** With distinct keys that are new to [out], the loop appends what it
    keeps, in order. *)
Lemma fill_append (f : data -> option data) (items out : dict) :
  distinct (keys items) = true ->
  (forall k, In k (keys items) -> ~ In k (keys out)) ->
  fill f items out = (out ++ kept f items)%list.
Proof.
  revert out. induction items as [|[k v] items IH]; intros out Hd Hnew; simpl.
  - rewrite app_nil_r. reflexivity.
  - apply distinct_cons in Hd as [Hk Hd]. simpl in Hk.
    destruct (f v) as [w|].
    + rewrite dict_set_fresh by (apply Hnew; left; reflexivity).
      rewrite IH; [rewrite <- app_assoc; reflexivity | exact Hd |].
      intros k' Hk' Hin. unfold keys in Hin. rewrite map_app in Hin.
      apply in_app_or in Hin as [Hin | [<- | []]].
      * apply (Hnew k'); [right; exact Hk' | exact Hin].
      * apply Hk, Hk'.
    + apply IH; [exact Hd|]. intros k' Hk'. apply Hnew. right. exact Hk'.
Qed.

Lemma kept_all (f : data -> option data) (items : dict) :
  List.Forall (fun kv => f (snd kv) = Some (snd kv)) items -> kept f items = items.
Proof.
  induction 1 as [|[k v] items Hv Hitems IH]; simpl; [reflexivity|].
  simpl in Hv. rewrite Hv, IH. reflexivity.
Qed.

Lemma kept_Some (f : data -> option data) (k : string) (v w : data) (items : dict) :
  f v = Some w -> kept f ((k, v) :: items) = (k, w) :: kept f items.
Proof. simpl. intros ->. reflexivity. Qed.

Lemma kept_None (f : data -> option data) (k : string) (v : data) (items : dict) :
  f v = None -> kept f ((k, v) :: items) = kept f items.
Proof. simpl. intros ->. reflexivity. Qed.

Lemma kept_keys_sub (f : data -> option data) (items : dict) (k : string) :
  In k (keys (kept f items)) -> In k (keys items).
Proof.
  induction items as [|[k0 v0] items IH]; simpl; [tauto|].
  destruct (f v0); simpl; tauto.
Qed.

Section Conversion_facts.
Context `{Runtime}.

Lemma dict_to_spec_kept (items : dict) :
  distinct (keys items) = true -> _dict_to_spec items = kept factory_item items.
Proof.
  intros Hd. unfold _dict_to_spec, _dict_factory.
  rewrite dict_factory_loop_fill. apply (fill_append factory_item items [] Hd).
  intros k _ [].
Qed.

Lemma dataclass_to_spec_kept (fields : dict) :
  distinct (keys fields) = true -> _dataclass_to_spec fields = kept dataclass_item fields.
Proof.
  intros Hd. unfold _dataclass_to_spec.
  rewrite dataclass_loop_fill. apply (fill_append dataclass_item fields [] Hd).
  intros k _ [].
Qed.

(** X10.  A mapping whose keys are distinct, and a dataclass instance,
    are converted entry by entry: the output has, in the order of the
    input, the entries that are kept, each under its own key with the
    conversion of its value, and nothing else.  A dict keeps the
    entries whose value is not [None]; a dataclass instance keeps the
    fields whose converted value is not [None]. *)
Theorem conversion_keeps_order :
  (forall items : dict,
     distinct (keys items) = true ->
     _dict_to_spec items =
     kept (fun v => if is_not_None v then Some (_object_to_spec v) else None) items) /\
  (forall fields : dict,
     distinct (keys fields) = true ->
     _dataclass_to_spec fields =
     kept (fun v => if is_not_None (_object_to_spec v)
                    then Some (_object_to_spec v) else None) fields) /\
  (forall e : ManifestEndpoint,
     _object_to_spec (endpoint_obj e) =
     PyDict (kept (fun v => if is_not_None (_object_to_spec v)
                            then Some (_object_to_spec v) else None)
                  (ManifestEndpoint_fields e))).
Proof.
  split; [exact dict_to_spec_kept|]. split; [exact dataclass_to_spec_kept|].
  intros e. unfold endpoint_obj. rewrite object_to_spec_dataclass.
  rewrite dataclass_to_spec_kept by apply endpoint_fields_distinct. reflexivity.
Qed.

(** X11.  The two loops test for [None] at different moments, and an
    enum member whose value is [None] shows it: as the value of a field
    of a dataclass instance it is dropped, as the value of an entry of
    a dict it is kept and the output holds [None] under its key. *)
Theorem enum_none_dict_vs_dataclass (entries : dict) (k : string) :
  distinct (keys entries) = true ->
  In (k, PyEnum PyNone) entries ->
  ~ In k (keys (_dataclass_to_spec entries)) /\
  dict_get k (_dict_to_spec entries) = Some PyNone.
Proof.
  intros Hd Hin. split.
  - apply dict_get_None. rewrite (dataclass_to_spec_get k _ entries Hd Hin). reflexivity.
  - rewrite (dict_to_spec_get k _ entries Hd Hin). reflexivity.
Qed.

End Conversion_facts.

(** A mapping with a [None] in the middle. *)
Lemma conversion_keeps_order_witness :
  _dict_to_spec [("a", PyInt 1); ("b", PyNone); ("c", PyExpression (OfSecretParam (secret "S")))]
  = [("a", PyInt 1); ("c", PyStr "{{ params.S }}")].
Proof.
  rewrite (proj1 conversion_keeps_order
             [("a", PyInt 1); ("b", PyNone);
              ("c", PyExpression (OfSecretParam (secret "S")))] eq_refl).
  reflexivity.
Defined.

(** The same two entries as a dict and as the fields of a dataclass
    instance. *)
Lemma enum_none_dict_vs_dataclass_witness :
  let entries := [("mode", PyEnum PyNone); ("size", PyInt 1)] in
  ~ In "mode" (keys (_dataclass_to_spec entries)) /\
  dict_get "mode" (_dict_to_spec entries) = Some PyNone.
Proof.
  intros entries.
  apply (enum_none_dict_vs_dataclass entries "mode" eq_refl).
  left. reflexivity.
Defined.

(** ** What the conversion returns *)

Lemma enums_scalar_items (items : dict) :
  enums_scalar (PyDict items) = forallb (fun kv => enums_scalar (snd kv)) items /\
  enums_scalar (PyDataclass items) = forallb (fun kv => enums_scalar (snd kv)) items.
Proof.
  simpl. split; induction items as [|[k v] items IH]; simpl; try reflexivity;
    rewrite IH; reflexivity.
Qed.

Lemma plain_dict (items : dict) :
  plain (PyDict items) = forallb (fun kv => plain (snd kv)) items.
Proof.
  simpl. induction items as [|[k v] items IH]; simpl; [reflexivity|].
  rewrite IH. reflexivity.
Qed.

Lemma scalar_plain (v : data) : scalar v = true -> plain v = true.
Proof. destruct v; simpl; congruence. Qed.

Lemma forallb_Forall {A} (f : A -> bool) (l : list A) :
  forallb f l = true <-> List.Forall (fun x => f x = true) l.
Proof.
  rewrite forallb_forall, List.Forall_forall. reflexivity.
Qed.

Section Output_facts.
Context `{Runtime}.

(** Only [None], and an enum member whose value is [None], convert to
    [None]. *)
Lemma object_to_spec_not_None (v : data) :
  is_not_None v = true -> enums_scalar v = true ->
  is_not_None (_object_to_spec v) = true.
Proof.
  destruct v as [| b | n | f | s | v | t e | fields | l | items | m]; simpl;
    try reflexivity; try discriminate.
  intros _. destruct v; simpl; congruence.
Qed.

(** X12.  The conversion of a tree whose enum members have scalar
    values is plain data: it holds no expression, no dataclass instance
    and no enum member at any depth, only [None], scalars, texts, the
    marker, lists and dicts. *)
Theorem output_is_plain (d : data) :
  enums_scalar d = true -> plain (_object_to_spec d) = true.
Proof.
  induction d as [| b | n | f | s | v IH | t e | fields IH | l IH | items IH | m]
    using data_induction; intros He; try reflexivity.
  - rewrite object_to_spec_enum. apply scalar_plain, He.
  - rewrite object_to_spec_dataclass, plain_dict. apply forallb_Forall.
    unfold _dataclass_to_spec. rewrite dataclass_loop_fill.
    apply (fill_values (fun w => plain w = true)); [constructor|].
    intros k v w Hin Hw. unfold dataclass_item in Hw.
    destruct (is_not_None (_object_to_spec v)); [|discriminate].
    injection Hw as <-.
    rewrite List.Forall_forall in IH. apply (IH (k, v) Hin).
    rewrite (proj2 (enums_scalar_items fields)) in He.
    rewrite forallb_forall in He. apply (He (k, v) Hin).
  - rewrite object_to_spec_list. simpl. apply forallb_Forall.
    simpl in He. apply forallb_Forall in He.
    induction IH as [|v l Hv Hl IHl]; simpl; [constructor|].
    apply List.Forall_cons_iff in He as [Hev Hel].
    constructor; [apply Hv, Hev | apply IHl, Hel].
  - rewrite object_to_spec_dict, plain_dict. apply forallb_Forall.
    unfold _dict_to_spec, _dict_factory. rewrite dict_factory_loop_fill.
    apply (fill_values (fun w => plain w = true)); [constructor|].
    intros k v w Hin Hw. unfold factory_item in Hw.
    destruct (is_not_None v); [|discriminate].
    injection Hw as <-.
    rewrite List.Forall_forall in IH. apply (IH (k, v) Hin).
    rewrite (proj1 (enums_scalar_items items)) in He.
    rewrite forallb_forall in He. apply (He (k, v) Hin).
Qed.

(** X13.  Converting twice is converting once: on a tree whose enum
    members have scalar values, [_object_to_spec] applied to its own
    output returns that output unchanged, in the same order and with
    the same keys. *)
Theorem object_to_spec_idempotent (d : data) :
  enums_scalar d = true ->
  _object_to_spec (_object_to_spec d) = _object_to_spec d.
Proof.
  induction d as [| b | n | f | s | v IH | t e | fields IH | l IH | items IH | m]
    using data_induction; intros He; try reflexivity.
  - rewrite object_to_spec_enum. destruct v; try discriminate He; reflexivity.
  - rewrite object_to_spec_dataclass, object_to_spec_dict. f_equal.
    unfold _dataclass_to_spec. rewrite dataclass_loop_fill.
    rewrite dict_to_spec_kept by (apply fill_distinct; reflexivity).
    apply kept_all.
    apply (fill_values (fun w => factory_item w = Some w)); [constructor|].
    intros k v w Hin Hw. unfold dataclass_item in Hw.
    destruct (is_not_None (_object_to_spec v)) eqn:Hnn; [|discriminate].
    injection Hw as <-. unfold factory_item. rewrite Hnn. f_equal.
    rewrite List.Forall_forall in IH. apply (IH (k, v) Hin).
    rewrite (proj2 (enums_scalar_items fields)) in He.
    rewrite forallb_forall in He. apply (He (k, v) Hin).
  - rewrite !object_to_spec_list. f_equal. rewrite map_map.
    simpl in He. apply forallb_Forall in He.
    induction IH as [|v l Hv Hl IHl]; simpl; [reflexivity|].
    apply List.Forall_cons_iff in He as [Hev Hel].
    rewrite (Hv Hev), (IHl Hel). reflexivity.
  - rewrite !object_to_spec_dict. f_equal.
    assert (HX : _dict_to_spec items = fill factory_item items [])
      by apply dict_factory_loop_fill.
    rewrite HX.
    rewrite dict_to_spec_kept by (apply fill_distinct; reflexivity).
    apply kept_all.
    apply (fill_values (fun w => factory_item w = Some w)); [constructor|].
    intros k v w Hin Hw. unfold factory_item in Hw.
    destruct (is_not_None v) eqn:Hnn; [|discriminate].
    injection Hw as <-.
    rewrite (proj1 (enums_scalar_items items)) in He.
    rewrite forallb_forall in He. pose proof (He (k, v) Hin) as Hev. simpl in Hev.
    unfold factory_item. rewrite (object_to_spec_not_None v Hnn Hev). f_equal.
    rewrite List.Forall_forall in IH. apply (IH (k, v) Hin), Hev.
Qed.

End Output_facts.

(** The example endpoint, converted once and twice. *)
Lemma output_is_plain_witness :
  plain (_object_to_spec (endpoint_obj Examples.on_event)) = true.
Proof. exact (output_is_plain (endpoint_obj Examples.on_event) eq_refl). Defined.

Lemma object_to_spec_idempotent_witness :
  _object_to_spec (_object_to_spec (endpoint_obj Examples.on_event))
  = _object_to_spec (endpoint_obj Examples.on_event).
Proof. exact (object_to_spec_idempotent (endpoint_obj Examples.on_event) eq_refl). Defined.

(** ** The manifest of a stack *)

Lemma map_result_Raise {A B} (f : A -> result B) (l : list A) (e : exn) :
  map_result f l = Raise e -> exists a, In a l /\ f a = Raise e.
Proof.
  induction l as [|a l IH]; simpl; [discriminate|].
  destruct (f a) as [b|e'] eqn:Ha; simpl.
  - destruct (map_result f l) as [bs|e'']; simpl; [discriminate|].
    intros [= <-]. destruct (IH eq_refl) as (a' & Hin & Ha').
    exists a'. split; [right; exact Hin | exact Ha'].
  - intros [= <-]. exists a. split; [left; reflexivity | exact Ha].
Qed.

Section Stack_facts.
Context `{Runtime}.

(** What [_param_to_spec] does, by the class of the param. *)
Lemma param_to_spec_cases (p : AnyParam) :
  (unsupported p = true /\ _param_to_spec p = Raise UnsupportedParamTypeError) \/
  (unsupported p = false /\
   exists spec tag,
     _param_to_spec p = Ok spec /\ type_tag p = Some tag /\
     dict_get "name" spec = Some (PyStr (param_name p)) /\
     dict_get "type" spec = Some (PyStr tag)).
Proof.
  destruct p as [t [c n d l ds im inp] | [n l ds im]].
  - destruct c; try (left; split; reflexivity);
      right; (split; [reflexivity|]);
      destruct d, l, ds, im; do 2 eexists; repeat split; reflexivity.
  - right. split; [reflexivity|].
    destruct l, ds, im; do 2 eexists; repeat split; reflexivity.
Qed.

Lemma map_result_unsupported (ps : list AnyParam) (p : AnyParam) :
  In p ps -> unsupported p = true ->
  map_result _param_to_spec ps = Raise UnsupportedParamTypeError.
Proof.
  induction ps as [|q ps IH]; simpl; [tauto|].
  intros Hin Hp.
  destruct (param_to_spec_cases q) as [[_ ->] | (Hq & spec & tag & -> & _)];
    [reflexivity|]. simpl.
  destruct Hin as [-> | Hin]; [congruence|].
  rewrite (IH Hin Hp). reflexivity.
Qed.

(** X14.  [manifest_to_spec_dict] raises exactly when the stack
    declares a param that is of none of the classes [_param_to_spec]
    knows, such as a param of the base class, and what it raises then
    is [UnsupportedParamTypeError]; with [params] set to [None], or
    with declared params of known classes only, it returns. *)
Theorem manifest_to_spec_dict_raises (m : ManifestStack) (e : exn) :
  manifest_to_spec_dict m = Raise e <->
  e = UnsupportedParamTypeError /\
  exists ps p, params m = Some ps /\ In p ps /\ unsupported p = true.
Proof.
  unfold manifest_to_spec_dict. split.
  - destruct (params m) as [ps|]; [|discriminate].
    destruct (map_result _param_to_spec ps) as [specs|e'] eqn:Hps; simpl;
      [discriminate|].
    intros [= ->]. apply map_result_Raise in Hps as (p & Hin & Hp).
    destruct (param_to_spec_cases p) as [[Hu Hr] | (_ & spec & tag & Hok & _)];
      [|congruence].
    split; [congruence|]. exists ps, p. auto.
  - intros (-> & ps & p & -> & Hin & Hp).
    rewrite (map_result_unsupported ps p Hin Hp). reflexivity.
Qed.

Lemma kept_endpoints (eps : list (string * ManifestEndpoint)) :
  kept factory_item (map (fun ne => (fst ne, endpoint_obj (snd ne))) eps)
  = map (fun ne => (fst ne, endpoint_spec (snd ne))) eps.
Proof.
  induction eps as [|[n e] eps IH]; [reflexivity|].
  cbn [map kept fst snd].
  change (factory_item (endpoint_obj e)) with (Some (endpoint_spec e)).
  cbv iota beta. rewrite IH. reflexivity.
Qed.

Lemma object_to_spec_apis (apis : list ManifestRequiredApi) :
  map _object_to_spec (map ManifestRequiredApi_obj apis) = map api_spec apis.
Proof. rewrite map_map. apply map_ext. intros [a r]. reflexivity. Qed.

Lemma object_to_spec_params (ps : list AnyParam) :
  map _object_to_spec (map param_obj ps)
  = map (fun p => PyStr ("{{ params." +:+ param_name p +:+ " }}")) ps.
Proof. rewrite map_map. apply map_ext. intros [t q | s]; reflexivity. Qed.

(** X15.  What [manifest_to_spec_dict] returns for a stack whose
    endpoint names are distinct: under [endpoints] the conversion of
    each endpoint under its name, in order; under [specVersion] the
    version; under [params], only when [params] is not [None], the spec
    records of the declared params in order, and never their braced
    renderings; under [requiredAPIs] each API with its reason; these
    keys in this order and no other key. *)
Theorem manifest_to_spec_dict_shape (m : ManifestStack) (out : dict) :
  distinct (map fst (endpoints m)) = true ->
  manifest_to_spec_dict m = Ok out ->
  let eps := ("endpoints",
              PyDict (map (fun ne => (fst ne, endpoint_spec (snd ne))) (endpoints m))) in
  let version := ("specVersion", PyStr (specVersion m)) in
  let apis := ("requiredAPIs", PyList (map api_spec (requiredAPIs m))) in
  match params m with
  | Some ps =>
      exists specs,
        Forall2 (fun p spec => _param_to_spec p = Ok spec) ps specs /\
        out = [eps; version; ("params", PyList (map PyDict specs)); apis]
  | None => out = [eps; version; apis]
  end.
Proof.
  intros Hd Hout eps version apis.
  assert (Heps : _object_to_spec
                   (PyDict (map (fun ne => (fst ne, endpoint_obj (snd ne))) (endpoints m)))
                 = snd eps).
  { rewrite object_to_spec_dict, dict_to_spec_kept, kept_endpoints; [reflexivity|].
    unfold keys. rewrite map_map. exact Hd. }
  assert (Hapis : _object_to_spec (PyList (map ManifestRequiredApi_obj (requiredAPIs m)))
                  = snd apis).
  { rewrite object_to_spec_list, object_to_spec_apis. reflexivity. }
  assert (Hfields : _dataclass_to_spec (ManifestStack_fields m) =
                    eps :: version
                    :: (match params m with
                        | Some ps => [("params", _object_to_spec (PyList (map param_obj ps)))]
                        | None => []
                        end ++ [apis])%list).
  { rewrite dataclass_to_spec_kept by reflexivity. unfold ManifestStack_fields.
    rewrite (kept_Some _ _ _ (snd eps))
      by (unfold dataclass_item; rewrite Heps; reflexivity).
    rewrite (kept_Some _ _ _ (PyStr (specVersion m))) by reflexivity.
    destruct (params m) as [ps|].
    - rewrite (kept_Some _ _ _ (_object_to_spec (PyList (map param_obj ps))))
        by reflexivity.
      rewrite (kept_Some _ _ _ (snd apis))
        by (unfold dataclass_item; rewrite Hapis; reflexivity).
      reflexivity.
    - rewrite kept_None by reflexivity.
      rewrite (kept_Some _ _ _ (snd apis))
        by (unfold dataclass_item; rewrite Hapis; reflexivity).
      reflexivity. }
  unfold manifest_to_spec_dict in Hout. rewrite Hfields in Hout.
  destruct (params m) as [ps|].
  - destruct (map_result _param_to_spec ps) as [specs|e] eqn:Hps; simpl in Hout;
      [|discriminate Hout].
    exists specs. split; [apply map_result_Ok, Hps|].
    injection Hout as <-. reflexivity.
  - injection Hout as <-. reflexivity.
Qed.

(** X16.  Every param of a reachable registry that is of a class
    [_param_to_spec] knows has a spec record, and that record names it
    as the registry does: its [name] is the key the param is registered
    under, and its [type] is the tag of its class. *)
Theorem registered_param_spec (reg : registry) (k : string) (p : AnyParam) :
  reachable reg ->
  reg !! k = Some p ->
  unsupported p = false ->
  exists spec tag,
    _param_to_spec p = Ok spec /\ type_tag p = Some tag /\
    dict_get "name" spec = Some (PyStr k) /\
    dict_get "type" spec = Some (PyStr tag).
Proof.
  intros Hreach Hk Hp.
  destruct (reachable_ok reg Hreach k p Hk) as (_ & <- & _).
  destruct (param_to_spec_cases p) as [[Hu _] | (_ & spec & tag & Hspec)];
    [congruence|].
  exists spec, tag. exact Hspec.
Qed.

End Stack_facts.

(** The example stack, whose params are all of known classes. *)
Lemma manifest_to_spec_dict_shape_witness :
  exists out specs,
    manifest_to_spec_dict Examples.stack = Ok out /\
    out = [ ("endpoints", PyDict [("on_event", endpoint_spec Examples.on_event)]);
            ("specVersion", PyStr "v1alpha1");
            ("params", PyList (map PyDict specs));
            ("requiredAPIs", PyList []) ].
Proof.
  destruct (manifest_to_spec_dict Examples.stack) as [out|err] eqn:Hout;
    [|vm_compute in Hout; discriminate Hout].
  destruct (manifest_to_spec_dict_shape Examples.stack out eq_refl Hout)
    as (specs & _ & Hshape).
  exists out, specs. split; [reflexivity | exact Hshape].
Defined.

(** The registry after the example param [MEMORY] was declared. *)
Lemma registered_param_spec_witness :
  exists spec tag,
    _param_to_spec (AParam Examples.MEMORY) = Ok spec /\
    type_tag (AParam Examples.MEMORY) = Some tag /\
    dict_get "name" spec = Some (PyStr "MEMORY") /\
    dict_get "type" spec = Some (PyStr tag).
Proof.
  apply (registered_param_spec (snd (construct (AParam Examples.MEMORY) ∅)) "MEMORY"
           (AParam Examples.MEMORY)
           (reachable_construct (AParam Examples.MEMORY) ∅ reachable_start)
           eq_refl eq_refl).
Defined.

Lemma dict_set_keys_sub (k k' : string) (w : data) (out : dict) :
  In k' (keys (dict_set k w out)) -> k' = k \/ In k' (keys out).
Proof.
  destruct (in_dec string_dec k (keys out)) as [Hin | Hout].
  - rewrite dict_set_keys by exact Hin. auto.
  - rewrite dict_set_fresh by exact Hout. unfold keys. rewrite map_app.
    intros [Hk | [<- | []]]%in_app_or; auto.
Qed.

Lemma fill_keys_sub (f : data -> option data) (items out : dict) (k : string) :
  In k (keys (fill f items out)) -> In k (keys out) \/ In k (keys items).
Proof.
  revert out. induction items as [|[k0 v0] items IH]; intros out; simpl; [auto|].
  intros [Hk | Hk]%IH; [|auto].
  destruct (f v0); [|auto].
  apply dict_set_keys_sub in Hk as [-> | Hk]; auto.
Qed.

Section Keys_facts.
Context `{Runtime}.

(** X17.  For every list of items, distinct keys or not, and for every
    list of fields, the output of [_dict_factory] and of
    [_dataclass_to_spec] never has a key twice and never has a key that
    the input does not have. *)
Theorem output_keys (items : dict) :
  (distinct (keys (_dict_factory items)) = true /\
   forall k, In k (keys (_dict_factory items)) -> In k (keys items)) /\
  (distinct (keys (_dataclass_to_spec items)) = true /\
   forall k, In k (keys (_dataclass_to_spec items)) -> In k (keys items)).
Proof.
  unfold _dict_factory, _dataclass_to_spec.
  rewrite dict_factory_loop_fill, dataclass_loop_fill.
  repeat split; try (apply fill_distinct; reflexivity);
    intros k [[] | Hk]%fill_keys_sub; exact Hk.
Qed.

End Keys_facts.
